(** * TatSu [ngcodegen/objectmodel.py]: the object-model generator

    A shallow embedding of [tatsu/ngcodegen/objectmodel.py] and the
    properties of the class hierarchy it emits.  Python values are
    modelled as follows:

    - [str] is [string], compared with [String.eqb] and ordered by
      [String.leb] (order of code units, as Python orders text);
    - a [dict] is an association list that keeps insertion order, a
      later assignment to a key already present replaces the value in
      place (the behaviour of CPython dictionaries);
    - a [set] of hashable values is a duplicate-free list;
    - the generator object is a record that is threaded through the
      printing methods; an exception is a [Raise] result. *)

From Stdlib Require Import List String Ascii Bool Arith Lia.
From Stdlib Require Import Sorting.Sorted Structures.OrdersEx.
From Stdlib Require Import NArith.
Import ListNotations.
Open Scope string_scope.
Open Scope list_scope.

Set Implicit Arguments.

(** ** Python primitives *)

Module Py.

(** [s.split('::')]: the text is scanned left to right; [cur] is the piece
    read so far. *)
Fixpoint split_dcolon_from (cur s : string) : list string :=
  match s with
  | EmptyString => [cur]
  | String c s' =>
      match s' with
      | EmptyString => [(cur ++ String c EmptyString)%string]
      | String c' s'' =>
          if (Ascii.eqb c ":" && Ascii.eqb c' ":")%bool
          then cur :: split_dcolon_from EmptyString s''
          else split_dcolon_from (cur ++ String c EmptyString)%string s'
      end
  end.

Definition split_dcolon (s : string) : list string :=
  split_dcolon_from EmptyString s.

(** [s.split('.')]. *)
Fixpoint split_dot_from (cur s : string) : list string :=
  match s with
  | EmptyString => [cur]
  | String c s' =>
      if Ascii.eqb c "."
      then cur :: split_dot_from EmptyString s'
      else split_dot_from (cur ++ String c EmptyString)%string s'
  end.

Definition split_dot (s : string) : list string :=
  split_dot_from EmptyString s.

(** [sep.join(l)]. *)
Fixpoint join (sep : string) (l : list string) : string :=
  match l with
  | [] => EmptyString
  | [x] => x
  | x :: l' => (x ++ sep ++ join sep l')%string
  end.

(** [list(enumerate(l))]. *)
Definition enumerate {A} (l : list A) : list (nat * A) :=
  combine (seq 0 (List.length l)) l.

(** Truth value of a [str]: the empty text is false. *)
Definition truthy (s : string) : bool :=
  match s with EmptyString => false | _ => true end.

(** Membership in a list of texts ([x in l]). *)
Definition mem (x : string) (l : list string) : bool :=
  existsb (String.eqb x) l.

(** *** Dictionaries with text keys *)

Definition dict (V : Type) := list (string * V).

Fixpoint dict_get {V} (d : dict V) (k : string) : option V :=
  match d with
  | [] => None
  | (k', v) :: d' => if String.eqb k k' then Some v else dict_get d' k
  end.

(** [d[k] = v]: a key already present keeps its position. *)
Fixpoint dict_set {V} (k : string) (v : V) (d : dict V) : dict V :=
  match d with
  | [] => [(k, v)]
  | (k', v') :: d' =>
      if String.eqb k k' then (k, v) :: d' else (k', v') :: dict_set k v d'
  end.

(** [{k: v for (k, v) in items}]: the items are assigned in order. *)
Definition dict_of {V} (items : list (string * V)) : dict V :=
  fold_left (fun d kv => dict_set (fst kv) (snd kv) d) items [].

Definition keys {V} (d : dict V) : list string := map fst d.

Definition has_key {V} (d : dict V) (k : string) : bool :=
  match dict_get d k with Some _ => true | None => false end.

(** *** Sets as duplicate-free lists, in order of first insertion *)

Fixpoint set_of {A} (eqb : A -> A -> bool) (l : list A) : list A :=
  match l with
  | [] => []
  | x :: l' => x :: filter (fun y => negb (eqb x y)) (set_of eqb l')
  end.

(** *** [sorted] on texts *)

Fixpoint insert_sorted (x : string) (l : list string) : list string :=
  match l with
  | [] => [x]
  | y :: l' => if String.leb x y then x :: l else y :: insert_sorted x l'
  end.

Definition sorted (l : list string) : list string :=
  fold_right insert_sorted [] l.

End Py.

(** ** The grammar model consumed by the generator *)

(** A declared parameter of a rule: a text, or a value of another type. *)
Inductive Param : Type :=
| PStr (s : string)
| PInt (n : nat)
| PNone.

(** [grammars.Rule]: [defines] is the result of [rule.defines()], a list of
    pairs of an attribute name and its list flag. *)
Record Rule : Type := mkRule {
  name : string;
  params : list Param;
  defines : list (string * bool)
}.

Record Grammar : Type := mkGrammar {
  grammar_name : string;
  rules : list Rule
}.

(** A Python [type]: its [__name__] and [__module__]. *)
Record PyType : Type := mkPyType {
  type_name : string;
  type_module : string
}.

(** [BaseClassSpec = namedtuple('BaseClassSpec', ['class_name', 'base'])] *)
Record BaseClassSpec : Type := mkSpec {
  class_name : string;
  base : string
}.

Definition spec_eqb (a b : BaseClassSpec) : bool :=
  (String.eqb (class_name a) (class_name b) && String.eqb (base a) (base b))%bool.

Definition pair_eqb (a b : string * string) : bool :=
  (String.eqb (fst a) (fst b) && String.eqb (snd a) (snd b))%bool.

Definition attr_eqb (a b : string * bool) : bool :=
  (String.eqb (fst a) (fst b) && Bool.eqb (snd a) (snd b))%bool.

(** ** Exceptions and the generator's state *)

Inductive Exn : Type :=
| ValueError (msg : string)
| KeyError (key : string).

Inductive Result (A : Type) : Type :=
| Ok (a : A)
| Raise (e : Exn).

Arguments Ok {A} a.
Arguments Raise {A} e.

(** The fields of a [PythonModelGenerator]: [base_type] and [name] are set
    by [__init__]; [indentation] and [output] belong to the indenting
    writer it inherits from. *)
Record PythonModelGenerator : Type := mkGen {
  base_type : PyType;
  self_name : option string;
  indentation : nat;
  output : list string
}.

(** A method of the generator: it reads and updates [self] and either
    returns or raises; the object keeps the state it had when the
    exception was raised. *)
Definition M (A : Type) : Type :=
  PythonModelGenerator -> Result A * PythonModelGenerator.

Definition ret {A} (a : A) : M A := fun self => (Ok a, self).

Definition bind {A B} (c : M A) (k : A -> M B) : M B :=
  fun self =>
    match c self with
    | (Ok a, self') => k a self'
    | (Raise e, self') => (Raise e, self')
    end.

Definition raise {A} (e : Exn) : M A := fun self => (Raise e, self).

Notation "x <- c ;; k" := (bind c (fun x => k))
  (at level 61, c at next level, right associativity).
Notation "c ;; k" := (bind c (fun _ => k))
  (at level 61, right associativity).

Fixpoint for_each {A} (l : list A) (body : A -> M unit) : M unit :=
  match l with
  | [] => ret tt
  | x :: l' => body x ;; for_each l' body
  end.

(** ** The indenting writer *)

Module IndentPrint.

Fixpoint spaces (n : nat) : string :=
  match n with
  | 0 => EmptyString
  | S n' => String " " (spaces n')
  end.

Fixpoint leading_spaces (s : string) : nat :=
  match s with
  | String c s' => if Ascii.eqb c " " then S (leading_spaces s') else 0
  | EmptyString => 0
  end.

Fixpoint drop (n : nat) (s : string) : string :=
  match n, s with
  | S n', String _ s' => drop n' s'
  | _, _ => s
  end.

Definition blank (s : string) : bool :=
  Nat.eqb (leading_spaces s) (String.length s).

(** The left margin shared by the lines that are not blank. *)
Fixpoint margin (lines : list string) : option nat :=
  match lines with
  | [] => None
  | l :: lines' =>
      if blank l then margin lines'
      else match margin lines' with
           | Some m => Some (Nat.min (leading_spaces l) m)
           | None => Some (leading_spaces l)
           end
  end.

Definition trim (lines : list string) : list string :=
  match margin lines with
  | Some m => map (fun l => if blank l then EmptyString else drop m l) lines
  | None => map (fun _ => EmptyString) lines
  end.

Definition indent_line (n : nat) (l : string) : string :=
  match l with
  | EmptyString => EmptyString
  | _ => (spaces n ++ l)%string
  end.

(** Modelled from the spec: [IndentPrintMixin] (tatsu.mixins.indent) is the
    scoped-indentation text writer the generator inherits from; its module
    is not among the sources.  [print] appends one line of text to the
    buffer at the current indentation. *)
Definition print (text : string) : M unit :=
  fun self =>
    (Ok tt, mkGen (base_type self) (self_name self) (indentation self)
              (output self ++ [indent_line (indentation self) text])).

(** [self.print()] *)
Definition print_blank : M unit := print EmptyString.

(** Modelled from the spec: [print] on a text of several lines (the
    preamble) appends its lines, without the left margin they share, at the
    current indentation. *)
Definition print_block (lines : list string) : M unit :=
  fun self =>
    (Ok tt, mkGen (base_type self) (self_name self) (indentation self)
              (output self ++ map (indent_line (indentation self)) (trim lines))).

(** Modelled from the spec: [with self.indent(): body] runs [body] four
    columns deeper and restores the indentation afterwards. *)
Definition indent {A} (body : M A) : M A :=
  fun self =>
    match body (mkGen (base_type self) (self_name self)
                      (indentation self + 4) (output self)) with
    | (result, self') =>
        (result, mkGen (base_type self') (self_name self')
                   (indentation self) (output self'))
    end.

(** Modelled from the spec: the accumulated text buffer, every printed line
    closed by a newline. *)
Definition unlines (lines : list string) : string :=
  String.concat EmptyString
    (map (fun l => (l ++ String "010" EmptyString)%string) lines).

Definition printed_text : M string :=
  fun self => (Ok (unlines (output self)), self).

End IndentPrint.

Import IndentPrint.

(** ** The generator *)

(** [HEADER.format(name=..., base_type_import=...)], line by line, with the
    left margin of the Python literal. *)
Definition HEADER (name base_type_import : string) : list string :=
  [ "    #!/usr/bin/env python3";
    "";
    "    # WARNING: CAVEAT UTILITOR";
    "    #";
    "    # This file was automatically generated by TatSu.";
    "    #";
    "    #    https://pypi.python.org/pypi/tatsu/";
    "    #";
    "    # Any changes you make to it will be overwritten the next time";
    "    # the file is generated.";
    "";
    "    from __future__ import annotations";
    "";
    "    from typing import Any";
    "    from dataclasses import dataclass";
    "";
    "    from tatsu.semantics import ModelBuilderSemantics";
    ("    " ++ base_type_import)%string;
    "";
    "";
    ("    class " ++ name ++ "ModelBuilderSemantics(ModelBuilderSemantics):")%string;
    "        def __init__(self, context=None, types=None):";
    "            types = [";
    "                t for t in globals().values()";
    "                if type(t) is type and issubclass(t, ModelBase)";
    "            ] + (types or [])";
    "            super().__init__(context=context, types=types)" ]%string.

(** [objectmodel.Node], the default root type. *)
Definition Node : PyType := mkPyType "Node" "tatsu.objectmodel".

(** Modelled from the spec: [compress_seq] (tatsu.util) is not among the
    sources; it collapses duplicates and keeps the order of first
    occurrence. *)
Definition compress_seq (seq : list (string * bool)) : list (string * bool) :=
  Py.set_of attr_eqb seq.

(** Modelled from the spec: [topsort] (tatsu.util.misc) is not among the
    sources.  It orders [nodes] so that for every pair [(class, base)] of
    [order] the base comes before the class; among the names whose bases
    have all been placed the first one of [nodes] is taken.  When no name
    can be placed (the pairs form a cycle) there is no order and the call
    fails. *)
Module Topsort.

Definition ready (order : list (string * string)) (placed : list string)
    (n : string) : bool :=
  forallb (fun e => (negb (String.eqb (fst e) n) || Py.mem (snd e) placed)%bool)
          order.

Fixpoint loop (fuel : nat) (order : list (string * string))
    (pending placed : list string) : option (list string) :=
  match pending with
  | [] => Some (rev placed)
  | _ :: _ =>
      match fuel with
      | 0 => None
      | S fuel' =>
          match find (ready order placed) pending with
          | Some n =>
              loop fuel' order (remove string_dec n pending) (n :: placed)
          | None => None
          end
      end
  end.

Definition topsort (nodes : list string) (order : list (string * string))
    : option (list string) :=
  loop (List.length nodes) order nodes [].

End Topsort.

Section Generator.

(** [safe_name] (tatsu.util) maps a name to a safe identifier and
    [is_builtin n] is the test [n in vars(builtins)]; the generator is
    verified for every such sanitizer and every set of built-in names. *)
Variable safe_name : string -> string.
Variable is_builtin : string -> bool.

Definition _model_base_name : string := "ModelBase".

(** [self.name = name or None] *)
Definition __init__ (name : string) (base_type : PyType) : PythonModelGenerator :=
  mkGen base_type (if Py.truthy name then Some name else None) 0 [].

(** The index [i + 1] is within [class_names] for every [i] enumerated from
    [class_names[:-1]] (lemma [base_class_specs_index]), so the default of
    [nth] is never returned. *)
Definition _base_class_specs (rule : Rule) : list BaseClassSpec :=
  match params rule with
  | PStr annotation :: _ =>
      let spec := Py.split_dcolon annotation in
      let base := [_model_base_name] in
      let class_names := map safe_name spec ++ base in
      map (fun ic => mkSpec (snd ic) (nth (fst ic + 1) class_names EmptyString))
          (Py.enumerate (removelast class_names))
  | _ => []
  end.

Definition _gen_base_class (class_name : string) (base : option string) : M unit :=
  print_blank ;;
  print_blank ;;
  print "@dataclass(eq=False)" ;;
  (match base with
   | Some b =>
       if Py.truthy b
       then print ("class " ++ class_name ++ "(" ++ b ++ "):")%string
       else print ("class " ++ class_name ++ ":")%string
   | None => print ("class " ++ class_name ++ ":")%string
   end) ;;
  indent (print "pass").

(** [sorted({safe_name(d) for d, _ in compress_seq(rule.defines())})] *)
Definition arguments (rule : Rule) : list string :=
  Py.sorted
    (Py.set_of String.eqb
       (map (fun d => safe_name (fst d)) (compress_seq (defines rule)))).

Definition _gen_rule_class (rule : Rule) (specs : list BaseClassSpec) : M unit :=
  match specs with
  | [] => ret tt
  | spec :: _ =>
      let arguments := arguments rule in
      print_blank ;;
      print_blank ;;
      print "@dataclass(eq=False)" ;;
      print ("class " ++ class_name spec ++ "(" ++ base spec ++ "):")%string ;;
      indent
        ((match arguments with
          | [] => print "pass"
          | _ :: _ => ret tt
          end) ;;
         for_each arguments (fun arg => print (arg ++ ": Any = None")%string))
  end.

(** The dictionaries and sets that [generate_model] builds from the
    grammar, under the names they have in the source. *)

Definition rule_index (grammar : Grammar) : Py.dict Rule :=
  Py.dict_of (map (fun rule => (name rule, rule)) (rules grammar)).

Definition rule_specs (grammar : Grammar) : Py.dict (list BaseClassSpec) :=
  filter (fun item => match snd item with [] => false | _ :: _ => true end)
    (Py.dict_of
       (map (fun rule => (name rule, _base_class_specs rule)) (rules grammar))).

Definition specs_by_name (grammar : Grammar) (base_type_name : string)
    : Py.dict string :=
  Py.dict_set _model_base_name base_type_name
    (Py.dict_of
       (flat_map (fun item => map (fun s => (class_name s, base s)) (snd item))
          (rule_specs grammar))).

Definition all_specs (grammar : Grammar) : list (string * string) :=
  Py.set_of pair_eqb
    (flat_map (fun item => map (fun s => (class_name s, base s)) (snd item))
       (rule_specs grammar)).

(** [topsort(reversed(specs_by_name), all_specs)] *)
Definition model_names (grammar : Grammar) (base_type_name : string)
    : option (list string) :=
  Topsort.topsort (rev (Py.keys (specs_by_name grammar base_type_name)))
    (all_specs grammar).

(** Every list of [rule_specs] is non-empty (lemma [rule_specs_nonempty]),
    so [rule_specs[name][0]] exists for every name kept by the filter. *)
Definition model_to_rule (grammar : Grammar) : Py.dict Rule :=
  Py.dict_of
    (flat_map
       (fun item =>
          match Py.dict_get (rule_specs grammar) (fst item) with
          | Some (s :: _) => [(class_name s, snd item)]
          | _ => []
          end)
       (rule_index grammar)).

(** The body of the loop over [model_names]; a rule object is true, so
    [model_to_rule.get(model_name)] is taken whenever it is not [None]. *)
Definition emit_model (grammar : Grammar) (base_type_name : string)
    (model_name : string) : M unit :=
  if is_builtin model_name then ret tt
  else
    match Py.dict_get (model_to_rule grammar) model_name with
    | Some rule =>
        match Py.dict_get (rule_specs grammar) (name rule) with
        | Some specs => _gen_rule_class rule specs
        | None => raise (KeyError (name rule))
        end
    | None =>
        _gen_base_class model_name
          (Py.dict_get (specs_by_name grammar base_type_name) model_name)
    end.

Definition set_name (n : string) : M unit :=
  fun self =>
    (Ok tt, mkGen (base_type self) (Some n) (indentation self) (output self)).

(** [base_type.__name__.split('.')[-1]] *)
Definition base_type_name (base_type : PyType) : string :=
  last (Py.split_dot (type_name base_type)) EmptyString.

Definition base_type_import (base_type : PyType) : string :=
  ("from " ++ type_module base_type ++ " import "
   ++ base_type_name base_type)%string.

(** [self.name or grammar.name] *)
Definition name_or (self_name : option string) (grammar : Grammar) : string :=
  match self_name with
  | Some n => if Py.truthy n then n else grammar_name grammar
  | None => grammar_name grammar
  end.

Definition generate_model (grammar : Grammar) : M string :=
  fun self =>
    let base_type := base_type self in
    let base_type_name := base_type_name base_type in
    let base_type_import := base_type_import base_type in
    let name := name_or (self_name self) grammar in
    (set_name name ;;
     print_block (HEADER name base_type_import) ;;
     match model_names grammar base_type_name with
     | None => raise (ValueError "There are cycles")
     | Some model_names =>
         for_each model_names (emit_model grammar base_type_name) ;;
         printed_text
     end) self.

(** [base_type = base_type or objectmodel.Node]: a missing root type is
    replaced by [Node]; the call creates a generator of its own and returns
    what its [generate_model] returns or raises. *)
Definition modelgen (model : Grammar) (name : string) (base_type : option PyType)
    : Result string :=
  let base_type := match base_type with Some t => t | None => Node end in
  let generator := __init__ name base_type in
  fst (generate_model model generator).

End Generator.

(** ** A sanitizer and a built-in namespace to run the generator on *)

Definition python_keywords : list string :=
  [ "False"; "None"; "True"; "and"; "as"; "assert"; "async"; "await";
    "break"; "class"; "continue"; "def"; "del"; "elif"; "else"; "except";
    "finally"; "for"; "from"; "global"; "if"; "import"; "in"; "is";
    "lambda"; "nonlocal"; "not"; "or"; "pass"; "raise"; "return"; "try";
    "while"; "with"; "yield" ].

(** A sanitizer that leaves a name alone unless it is a keyword of Python,
    which gets an underscore appended. *)
Definition keyword_safe_name (s : string) : string :=
  if Py.mem s python_keywords then (s ++ "_")%string else s.

(** Names bound in the [builtins] module of CPython 3. *)
Definition python_builtins : list string :=
  [ "abs"; "aiter"; "all"; "anext"; "any"; "ascii"; "bin"; "bool";
    "breakpoint"; "bytearray"; "bytes"; "callable"; "chr"; "classmethod";
    "compile"; "complex"; "copyright"; "credits"; "delattr"; "dict"; "dir";
    "divmod"; "enumerate"; "eval"; "exec"; "exit"; "filter"; "float";
    "format"; "frozenset"; "getattr"; "globals"; "hasattr"; "hash"; "help";
    "hex"; "id"; "input"; "int"; "isinstance"; "issubclass"; "iter"; "len";
    "license"; "list"; "locals"; "map"; "max"; "memoryview"; "min"; "next";
    "object"; "oct"; "open"; "ord"; "pow"; "print"; "property"; "quit";
    "range"; "repr"; "reversed"; "round"; "set"; "setattr"; "slice";
    "sorted"; "staticmethod"; "str"; "sum"; "super"; "tuple"; "type";
    "vars"; "zip";
    "False"; "True"; "None"; "Ellipsis"; "NotImplemented";
    "ArithmeticError"; "AssertionError"; "AttributeError"; "BaseException";
    "BlockingIOError"; "BrokenPipeError"; "BufferError"; "BytesWarning";
    "ChildProcessError"; "ConnectionAbortedError"; "ConnectionError";
    "ConnectionRefusedError"; "ConnectionResetError"; "DeprecationWarning";
    "EOFError"; "EnvironmentError"; "Exception"; "FileExistsError";
    "FileNotFoundError"; "FloatingPointError"; "FutureWarning";
    "GeneratorExit"; "IOError"; "ImportError"; "ImportWarning";
    "IndentationError"; "IndexError"; "InterruptedError";
    "IsADirectoryError"; "KeyError"; "KeyboardInterrupt"; "LookupError";
    "MemoryError"; "ModuleNotFoundError"; "NameError";
    "NotADirectoryError"; "NotImplementedError"; "OSError";
    "OverflowError"; "PendingDeprecationWarning"; "PermissionError";
    "ProcessLookupError"; "RecursionError"; "ReferenceError";
    "ResourceWarning"; "RuntimeError"; "RuntimeWarning";
    "StopAsyncIteration"; "StopIteration"; "SyntaxError"; "SyntaxWarning";
    "SystemError"; "SystemExit"; "TabError"; "TimeoutError"; "TypeError";
    "UnboundLocalError"; "UnicodeDecodeError"; "UnicodeEncodeError";
    "UnicodeError"; "UnicodeTranslateError"; "UnicodeWarning";
    "UserWarning"; "ValueError"; "Warning"; "ZeroDivisionError" ].

Definition python_builtin (s : string) : bool := Py.mem s python_builtins.

(** ** Predicates on names and on printed lines *)

(** No colon occurs in the text. *)
Fixpoint colon_free (s : string) : bool :=
  match s with
  | EmptyString => true
  | String c s' => (negb (Ascii.eqb c ":") && colon_free s')%bool
  end.

(** No opening parenthesis occurs in the text. *)
Fixpoint paren_free (s : string) : bool :=
  match s with
  | EmptyString => true
  | String c s' => (negb (Ascii.eqb c "(") && paren_free s')%bool
  end.

(** The line opens the declaration of class [n]: it reads [class n(...]
    or [class n:]. *)
Definition declares (n : string) (line : string) : bool :=
  (String.prefix ("class " ++ n ++ "(") line
   || String.eqb line ("class " ++ n ++ ":"))%bool.

(** The class line of a declaration, with or without a base. *)
Definition class_line (n : string) (b : option string) : string :=
  match b with
  | Some b => ("class " ++ n ++ "(" ++ b ++ "):")%string
  | None => ("class " ++ n ++ ":")%string
  end.

(** The line of a field. *)
Definition field_line (arg : string) : string :=
  ("    " ++ arg ++ ": Any = None")%string.

(** [specs] is the chain of the declared [names]: one pair per name, each
    sanitized name based on the next one and the last on the root base
    name. *)
Definition is_chain (safe_name : string -> string) (names : list string)
    (specs : list BaseClassSpec) : Prop :=
  List.length specs = List.length names /\
  (forall i, i + 1 < List.length names ->
     nth_error specs i
     = Some (mkSpec (safe_name (nth i names EmptyString))
                    (safe_name (nth (i + 1) names EmptyString)))) /\
  (forall i, i + 1 = List.length names ->
     nth_error specs i
     = Some (mkSpec (safe_name (nth i names EmptyString)) "ModelBase")).

(** In the order [l] every class comes after its bases: a name is
    preceded by the base of each pair of [order] that has it as class. *)
Definition bases_first (order : list (string * string)) (l : list string)
    : Prop :=
  forall l1 c l2 b, l = l1 ++ c :: l2 -> In (c, b) order -> In b l1.

(** ** What the printing methods append to the buffer *)

Definition with_output (self : PythonModelGenerator) (lines : list string)
    : PythonModelGenerator :=
  mkGen (base_type self) (self_name self) (indentation self) lines.

(** The method returns after appending the lines [f i] to the buffer, [i]
    being the indentation it is run at, and leaves the rest of the
    generator as it was. *)
Definition emits (c : M unit) (f : nat -> list string) : Prop :=
  forall self,
    c self = (Ok tt, with_output self (output self ++ f (indentation self))).

Definition base_class_lines (i : nat) (class_name : string)
    (base : option string) : list string :=
  [ indent_line i ""; indent_line i ""; indent_line i "@dataclass(eq=False)";
    indent_line i
      (class_line class_name
         (match base with
          | Some b => if Py.truthy b then Some b else None
          | None => None
          end));
    indent_line (i + 4) "pass" ].

Definition rule_class_lines (safe_name : string -> string) (i : nat)
    (rule : Rule) (specs : list BaseClassSpec) : list string :=
  match specs with
  | [] => []
  | spec :: _ =>
      [ indent_line i ""; indent_line i ""; indent_line i "@dataclass(eq=False)";
        indent_line i (class_line (class_name spec) (Some (base spec))) ]
      ++ (match arguments safe_name rule with
          | [] => [indent_line (i + 4) "pass"]
          | _ :: _ => []
          end)
      ++ map (fun arg => indent_line (i + 4) (arg ++ ": Any = None")%string)
           (arguments safe_name rule)
  end.

(** The lines of one turn of the loop over [model_names]. *)
Definition emit_lines (safe_name : string -> string)
    (is_builtin : string -> bool) (grammar : Grammar)
    (base_type_name : string) (i : nat) (model_name : string) : list string :=
  if is_builtin model_name then []
  else
    match Py.dict_get (model_to_rule safe_name grammar) model_name with
    | Some rule =>
        rule_class_lines safe_name i rule (_base_class_specs safe_name rule)
    | None =>
        base_class_lines i model_name
          (Py.dict_get (specs_by_name safe_name grammar base_type_name)
             model_name)
    end.

(** The lines of the preamble printed for a grammar by a generator created
    with [name] and [base_type]. *)
Definition preamble (name : string) (base_type : PyType) (grammar : Grammar)
    : list string :=
  trim (HEADER (if Py.truthy name then name else grammar_name grammar)
          (base_type_import base_type)).

(** The class line printed for [model_name] by its turn of the loop. *)
Definition decl_line (safe_name : string -> string) (grammar : Grammar)
    (base_type_name : string) (model_name : string) : string :=
  match Py.dict_get (model_to_rule safe_name grammar) model_name with
  | Some rule =>
      match _base_class_specs safe_name rule with
      | spec :: _ => class_line (class_name spec) (Some (base spec))
      | [] => EmptyString
      end
  | None =>
      class_line model_name
        (match Py.dict_get (specs_by_name safe_name grammar base_type_name)
                 model_name with
         | Some b => if Py.truthy b then Some b else None
         | None => None
         end)
  end.

(** The class lines of [n] among the printed lines. *)
Definition declarations (n : string) (lines : list string) : list string :=
  filter (declares n) lines.

(** Among the printed lines a declaration of [b] comes before a
    declaration of [c]. *)
Definition base_declared_before (lines : list string) (c b : string) : Prop :=
  exists l1 lb l2 lc l3,
    lines = l1 ++ lb :: l2 ++ lc :: l3 /\
    declares b lb = true /\ declares c lc = true.

(** ** Grammars to run the generator on *)

Definition grammar_foo : Grammar :=
  mkGrammar "Demo"
    [mkRule "foo" [PStr "Foo::Base"] [("x", false); ("y", false)]].

Definition grammar_list : Grammar :=
  mkGrammar "Demo" [mkRule "items" [PStr "A::list"] []].


(** The rule is annotated: its parameter list is not empty and its first
    parameter is a text. *)
Definition annotated (rule : Rule) : bool :=
  match params rule with
  | PStr _ :: _ => true
  | _ => false
  end.

(** The leaf class of a rule: the class of the first spec of its chain. *)
Definition leaf (safe_name : string -> string) (rule : Rule) : option string :=
  option_map class_name (hd_error (_base_class_specs safe_name rule)).

(** The declarations printed for the rule [foo] annotated [Foo::Base]
    that defines [x] and [y], under the root type [Node]. *)
Definition foo_declarations : list string :=
  [ ""; ""; "@dataclass(eq=False)"; "class ModelBase(Node):"; "    pass";
    ""; ""; "@dataclass(eq=False)"; "class Base(ModelBase):"; "    pass";
    ""; ""; "@dataclass(eq=False)"; "class Foo(Base):";
    "    x: Any = None"; "    y: Any = None" ].

(** The output holds a class [Base] derived from [Node] with the body
    [pass] and, after it, a class [Foo] derived from [Base] with the fields
    [x] and [y]. *)
Definition base_of_node_then_foo (lines : list string) : Prop :=
  exists l1 l2 l3,
    lines = l1 ++ ["class Base(Node):"; "    pass"]
               ++ l2 ++ ["class Foo(Base):"; "    x: Any = None";
                         "    y: Any = None"] ++ l3.

(** The run of a generator created with the default name and root type,
    with the sanitizer and the built-in names above. *)
Definition demo_run (g : Grammar) : Result string * PythonModelGenerator :=
  generate_model keyword_safe_name python_builtin g (__init__ "" Node).

Definition demo_text (g : Grammar) : string :=
  match fst (demo_run g) with
  | Ok text => text
  | Raise _ => EmptyString
  end.

Definition demo_state (g : Grammar) : PythonModelGenerator :=
  snd (demo_run g).

Definition grammar_other : Grammar :=
  mkGrammar "Other" [mkRule "item" [PStr "Item"] []].

Definition grammar_plain : Grammar :=
  mkGrammar "Plain"
    [mkRule "number" [] [("value", false)];
     mkRule "word" [PInt 1; PStr "Word"] []].

(** Lines made of class blocks: two blank lines, the decorator, a class
    line and an indented body that is not empty. *)
Inductive class_blocks : list string -> Prop :=
| class_blocks_nil : class_blocks []
| class_blocks_cons (line : string) (body rest : list string) :
    String.prefix "class " line = true ->
    body <> [] ->
    Forall (fun l => String.prefix "    " l = true) body ->
    class_blocks rest ->
    class_blocks
      ("" :: "" :: "@dataclass(eq=False)" :: line :: body ++ rest).

(** No dot occurs in the text. *)
Fixpoint dot_free (s : string) : bool :=
  match s with
  | EmptyString => true
  | String c s' => (negb (Ascii.eqb c ".") && dot_free s')%bool
  end.

Definition grammar_leaves : Grammar :=
  mkGrammar "Demo"
    [mkRule "first" [PStr "Shared::Root"] [("a", false)];
     mkRule "second" [PStr "Shared::Root"] [("b", false)]].

Definition grammar_single : Grammar :=
  mkGrammar "Demo" [mkRule "thing" [PStr "Thing"] []].

(** A root type whose [__name__] is the empty text, as [type('', (), {})]
    is. *)
Definition nameless_type : PyType := mkPyType "" "app.models".

Definition grammar_trailing : Grammar :=
  mkGrammar "Demo" [mkRule "pair" [PStr "A::B::"] []].

(** ** Properties of the Python primitives *)

Module PyFacts.

Lemma append_nil_r (s : string) : (s ++ "")%string = s.
Proof. induction s as [|c s IH]; simpl; [reflexivity | now rewrite IH]. Qed.

Lemma append_assoc (a b c : string) :
  ((a ++ b) ++ c)%string = (a ++ (b ++ c))%string.
Proof. induction a as [|x a IH]; simpl; [reflexivity | now rewrite IH]. Qed.

Lemma split_dcolon_from_last (n cur : string) :
  colon_free n = true ->
  Py.split_dcolon_from cur n = [(cur ++ n)%string].
Proof.
  revert cur. induction n as [|c n IH]; intros cur Hn.
  - simpl. now rewrite append_nil_r.
  - simpl in Hn. apply andb_prop in Hn. destruct Hn as [Hc Hn].
    apply negb_true_iff in Hc.
    cbn [Py.split_dcolon_from]. destruct n as [|c' n'].
    + reflexivity.
    + rewrite Hc. cbn [andb]. rewrite (IH _ Hn).
      now rewrite append_assoc.
Qed.

Lemma split_dcolon_from_sep (n cur rest : string) :
  colon_free n = true ->
  Py.split_dcolon_from cur (n ++ "::" ++ rest)
  = (cur ++ n)%string :: Py.split_dcolon_from "" rest.
Proof.
  revert cur. induction n as [|c n IH]; intros cur Hn.
  - simpl. now rewrite append_nil_r.
  - simpl in Hn. apply andb_prop in Hn. destruct Hn as [Hc Hn].
    apply negb_true_iff in Hc.
    change ((String c n ++ "::" ++ rest)%string)
      with (String c (n ++ "::" ++ rest)%string).
    cbn [Py.split_dcolon_from].
    specialize (IH (cur ++ String c "")%string Hn).
    destruct (n ++ "::" ++ rest)%string as [|c' t] eqn:E.
    + destruct n; discriminate E.
    + rewrite Hc. cbn [andb]. rewrite IH. now rewrite append_assoc.
Qed.

(** Splitting a text made of colon-free names joined by [::] gives the
    names back. *)
Lemma split_dcolon_join (names : list string) :
  names <> [] ->
  forallb colon_free names = true ->
  Py.split_dcolon (Py.join "::" names) = names.
Proof.
  unfold Py.split_dcolon.
  induction names as [|n names IH]; intros Hne Hall; [congruence|].
  simpl in Hall. apply andb_prop in Hall. destruct Hall as [Hn Hall].
  destruct names as [|n' names'].
  - simpl. now rewrite split_dcolon_from_last.
  - change (Py.join "::" (n :: n' :: names'))
      with (n ++ "::" ++ Py.join "::" (n' :: names'))%string.
    rewrite split_dcolon_from_sep by assumption. simpl append at 1.
    f_equal. apply IH; [discriminate | assumption].
Qed.

Lemma split_dcolon_from_nonempty (s cur : string) :
  Py.split_dcolon_from cur s <> [].
Proof.
  revert cur. induction s as [|c s IH]; intros cur; simpl; [discriminate|].
  destruct s as [|c' s']; [discriminate|].
  destruct (Ascii.eqb c ":" && Ascii.eqb c' ":")%bool; [discriminate|apply IH].
Qed.

Lemma combine_seq_nth_error {A} (l : list A) (k i : nat) (x : A) :
  nth_error l i = Some x ->
  nth_error (combine (seq k (List.length l)) l) i = Some (k + i, x).
Proof.
  revert i k. induction l as [|y l IH]; intros i k H.
  - destruct i; discriminate H.
  - destruct i as [|i]; simpl in *.
    + inversion H. now rewrite Nat.add_0_r.
    + rewrite (IH i (S k) H). f_equal. f_equal. lia.
Qed.

Lemma enumerate_nth_error {A} (l : list A) (i : nat) (x : A) :
  nth_error l i = Some x -> nth_error (Py.enumerate l) i = Some (i, x).
Proof. intros H. unfold Py.enumerate. now rewrite (combine_seq_nth_error l 0 i H). Qed.

Lemma enumerate_length {A} (l : list A) :
  List.length (Py.enumerate l) = List.length l.
Proof.
  unfold Py.enumerate. rewrite length_combine, length_seq. lia.
Qed.

End PyFacts.

(** ** The hierarchy extractor *)

Section HierarchyExtractor.

Variable safe_name : string -> string.

Local Abbreviation base_class_specs := (_base_class_specs safe_name).

Lemma base_class_specs_unfold (rule : Rule) (annotation : string)
    (rest : list Param) :
  params rule = PStr annotation :: rest ->
  let names := map safe_name (Py.split_dcolon annotation) in
  base_class_specs rule
  = map (fun ic => mkSpec (snd ic)
                     (nth (fst ic + 1) (names ++ [_model_base_name]) EmptyString))
        (Py.enumerate names).
Proof.
  intros H. unfold _base_class_specs. rewrite H. cbv zeta.
  now rewrite removelast_last.
Qed.

(** Every index read from [class_names] lies within it. *)
Lemma base_class_specs_index (names : list string) (i : nat) (n : string) :
  In (i, n) (Py.enumerate names) ->
  i + 1 < List.length (names ++ [_model_base_name]).
Proof.
  unfold Py.enumerate. intros H. apply in_combine_l in H.
  apply in_seq in H. rewrite length_app. simpl. lia.
Qed.

Lemma base_class_specs_length (rule : Rule) (annotation : string)
    (rest : list Param) :
  params rule = PStr annotation :: rest ->
  List.length (base_class_specs rule)
  = List.length (Py.split_dcolon annotation).
Proof.
  intros H. rewrite (base_class_specs_unfold _ H). cbv zeta.
  now rewrite length_map, PyFacts.enumerate_length, length_map.
Qed.

Lemma base_class_specs_nth (rule : Rule) (annotation : string)
    (rest : list Param) (i : nat) :
  params rule = PStr annotation :: rest ->
  let names := map safe_name (Py.split_dcolon annotation) in
  i < List.length names ->
  nth_error (base_class_specs rule) i
  = Some (mkSpec (nth i names EmptyString)
                 (nth (i + 1) (names ++ [_model_base_name]) EmptyString)).
Proof.
  intros H names Hi. rewrite (base_class_specs_unfold _ H). cbv zeta.
  fold names. rewrite nth_error_map.
  rewrite (PyFacts.enumerate_nth_error names i
             (nth_error_nth' names EmptyString Hi)).
  reflexivity.
Qed.

Lemma nth_map_safe (names : list string) (i : nat) :
  i < List.length names ->
  nth i (map safe_name names) EmptyString
  = safe_name (nth i names EmptyString).
Proof.
  intros Hi.
  rewrite (nth_indep (map safe_name names) EmptyString (safe_name EmptyString))
    by (now rewrite length_map).
  apply map_nth.
Qed.

(** C1. A rule whose first parameter is the annotation made of N names
    joined by [::] gets exactly N class specs: each sanitized name is paired
    with the sanitized name that follows it and the last one with the
    root base name [ModelBase]; the annotation of a single name [A] gives
    the single pair of (the sanitized) [A] and [ModelBase]. *)
Theorem base_class_specs_chain (rule : Rule) (names : list string)
    (rest : list Param) :
  names <> [] ->
  forallb colon_free names = true ->
  params rule = PStr (Py.join "::" names) :: rest ->
  is_chain safe_name names (base_class_specs rule) /\
  (forall A, names = [A] ->
     base_class_specs rule = [mkSpec (safe_name A) "ModelBase"]).
Proof.
  intros Hne Hcf Hp.
  pose proof (PyFacts.split_dcolon_join Hne Hcf) as Hsplit.
  assert (Hlen : List.length (base_class_specs rule) = List.length names)
    by (rewrite (base_class_specs_length _ Hp); now rewrite Hsplit).
  assert (Hnth : forall i, i < List.length names ->
            nth_error (base_class_specs rule) i
            = Some (mkSpec (safe_name (nth i names EmptyString))
                      (nth (i + 1) (map safe_name names ++ ["ModelBase"])
                         EmptyString))).
  { intros i Hi. rewrite (@base_class_specs_nth _ _ _ i Hp); cbv zeta;
      rewrite Hsplit; [|now rewrite length_map].
    now rewrite nth_map_safe. }
  assert (Hchain : is_chain safe_name names (base_class_specs rule)).
  { split; [exact Hlen|]. split.
    - intros i Hi. rewrite Hnth by lia. do 2 f_equal.
      rewrite app_nth1 by (rewrite length_map; lia).
      apply nth_map_safe. lia.
    - intros i Hi. rewrite Hnth by lia. do 2 f_equal.
      rewrite app_nth2 by (rewrite length_map; lia).
      rewrite length_map. replace (i + 1 - List.length names) with 0 by lia.
      reflexivity. }
  split; [exact Hchain|].
  intros A HA. subst names. destruct Hchain as (Hl & _ & Hlast).
  specialize (Hlast 0 eq_refl). simpl in Hl, Hlast.
  destruct (base_class_specs rule) as [|s [|s' l]]; try discriminate Hl.
  simpl in Hlast. now inversion Hlast.
Qed.

End HierarchyExtractor.

Lemma base_class_specs_chain_witness :
  is_chain keyword_safe_name ["A"; "B"; "C"]
    (_base_class_specs keyword_safe_name
       (mkRule "expr" [PStr "A::B::C"] [])) /\
  (forall A, ["A"; "B"; "C"] = [A] ->
     _base_class_specs keyword_safe_name (mkRule "expr" [PStr "A::B::C"] [])
     = [mkSpec (keyword_safe_name A) "ModelBase"]).
Proof.
  apply (@base_class_specs_chain keyword_safe_name (mkRule "expr" [PStr "A::B::C"] [])
           ["A"; "B"; "C"] []).
  - discriminate.
  - reflexivity.
  - reflexivity.
Defined.


(** ** Properties of dictionaries *)

Module DictFacts.

Import Py.

Lemma dict_get_set {V} (d : dict V) (k k' : string) (v : V) :
  dict_get (dict_set k v d) k'
  = if String.eqb k' k then Some v else dict_get d k'.
Proof.
  induction d as [|[k0 v0] d IH]; simpl.
  - reflexivity.
  - destruct (String.eqb_spec k k0) as [->|Hk]; simpl.
    + destruct (String.eqb_spec k' k0); reflexivity.
    + rewrite IH. destruct (String.eqb_spec k' k0) as [->|Hk'].
      * destruct (String.eqb_spec k0 k); [congruence | reflexivity].
      * reflexivity.
Qed.

Lemma keys_set {V} (d : dict V) (k k' : string) (v : V) :
  In k' (keys (dict_set k v d)) <-> k' = k \/ In k' (keys d).
Proof.
  unfold keys. induction d as [|[k0 v0] d IH]; simpl.
  - intuition congruence.
  - destruct (String.eqb_spec k k0) as [->|Hk]; simpl.
    + intuition congruence.
    + rewrite IH. intuition congruence.
Qed.

Lemma NoDup_keys_set {V} (d : dict V) (k : string) (v : V) :
  NoDup (keys d) -> NoDup (keys (dict_set k v d)).
Proof.
  induction d as [|[k0 v0] d IH]; intros H.
  - simpl. constructor; [intros [] | constructor].
  - simpl. inversion H as [|? ? Hk0 Hd]; subst.
    destruct (String.eqb_spec k k0) as [->|Hk]; simpl.
    + constructor; assumption.
    + constructor; [|apply IH; assumption].
      intros Hin. apply (keys_set d k k0 v) in Hin.
      destruct Hin as [->|Hin]; [congruence | apply Hk0, Hin].
Qed.

Lemma dict_get_fold {V} (items : list (string * V)) (d : dict V) (k : string) :
  dict_get (fold_left (fun d kv => dict_set (fst kv) (snd kv) d) items d) k
  = match dict_get (rev items) k with
    | Some v => Some v
    | None => dict_get d k
    end.
Proof.
  revert d. induction items as [|[k0 v0] items IH]; intros d; simpl.
  - reflexivity.
  - rewrite IH. clear IH.
    assert (Happ : forall (l : dict V),
              dict_get (l ++ [(k0, v0)]) k
              = match dict_get l k with
                | Some v => Some v
                | None => if String.eqb k k0 then Some v0 else None
                end).
    { induction l as [|[k1 v1] l IHl]; simpl.
      - reflexivity.
      - destruct (String.eqb k k1); [reflexivity | exact IHl]. }
    rewrite Happ. destruct (dict_get (rev items) k); [reflexivity|].
    rewrite dict_get_set. now destruct (String.eqb k k0).
Qed.

(** A lookup in a dictionary built from a list of items finds the last
    item with the key. *)
Lemma dict_get_of {V} (items : list (string * V)) (k : string) :
  dict_get (dict_of items) k = dict_get (rev items) k.
Proof.
  unfold dict_of. rewrite dict_get_fold. simpl.
  now destruct (dict_get (rev items) k).
Qed.

Lemma keys_fold {V} (items : list (string * V)) (d : dict V) (k : string) :
  In k (keys (fold_left (fun d kv => dict_set (fst kv) (snd kv) d) items d))
  <-> In k (keys d) \/ In k (map fst items).
Proof.
  revert d. induction items as [|[k0 v0] items IH]; intros d; simpl.
  - tauto.
  - rewrite IH, keys_set. intuition congruence.
Qed.

Lemma keys_of {V} (items : list (string * V)) (k : string) :
  In k (keys (dict_of items)) <-> In k (map fst items).
Proof. unfold dict_of. rewrite keys_fold. simpl. tauto. Qed.

Lemma NoDup_keys_of {V} (items : list (string * V)) :
  NoDup (keys (dict_of items)).
Proof.
  unfold dict_of.
  assert (H : forall d : dict V, NoDup (keys d) ->
            NoDup (keys (fold_left
                           (fun d kv => dict_set (fst kv) (snd kv) d) items d))).
  { induction items as [|kv items IH]; intros d Hd; simpl.
    - exact Hd.
    - apply IH, NoDup_keys_set, Hd. }
  apply H. constructor.
Qed.

Lemma dict_get_In {V} (d : dict V) (k : string) (v : V) :
  dict_get d k = Some v -> In (k, v) d.
Proof.
  induction d as [|[k0 v0] d IH]; simpl; [discriminate|].
  destruct (String.eqb_spec k k0) as [->|Hk]; intros H.
  - inversion H. now left.
  - right. now apply IH.
Qed.

Lemma dict_get_None {V} (d : dict V) (k : string) :
  dict_get d k = None <-> ~ In k (keys d).
Proof.
  induction d as [|[k0 v0] d IH]; simpl.
  - tauto.
  - destruct (String.eqb_spec k k0) as [->|Hk].
    + split; [discriminate | intros H; exfalso; apply H; now left].
    + rewrite IH. intuition congruence.
Qed.

Lemma dict_get_Some_key {V} (d : dict V) (k : string) (v : V) :
  dict_get d k = Some v -> In k (keys d).
Proof.
  intros H. apply dict_get_In in H. unfold keys.
  change k with (fst (k, v)). now apply in_map.
Qed.

Lemma In_dict_get {V} (d : dict V) (k : string) (v : V) :
  NoDup (keys d) -> In (k, v) d -> dict_get d k = Some v.
Proof.
  induction d as [|[k0 v0] d IH]; simpl; intros Hnd Hin; [contradiction|].
  inversion Hnd as [|? ? Hk0 Hd]; subst.
  destruct Hin as [Heq|Hin].
  - inversion Heq; subst. now rewrite String.eqb_refl.
  - destruct (String.eqb_spec k k0) as [->|Hk].
    + exfalso. apply Hk0. change k0 with (fst (k0, v)). now apply in_map.
    + now apply IH.
Qed.

Lemma keys_filter {V} (p : string * V -> bool) (d : dict V) (k : string) :
  In k (keys (filter p d)) -> In k (keys d).
Proof.
  unfold keys. rewrite !in_map_iff. intros [x [Hx Hin]].
  apply filter_In in Hin. exists x. tauto.
Qed.

Lemma NoDup_keys_filter {V} (p : string * V -> bool) (d : dict V) :
  NoDup (keys d) -> NoDup (keys (filter p d)).
Proof.
  induction d as [|[k0 v0] d IH]; simpl; intros H; [constructor|].
  inversion H as [|? ? Hk0 Hd]; subst.
  destruct (p (k0, v0)); simpl.
  - constructor; [|now apply IH].
    intros Hin. apply Hk0. eapply keys_filter, Hin.
  - now apply IH.
Qed.

Lemma dict_get_filter {V} (p : string * V -> bool) (d : dict V) (k : string) :
  NoDup (keys d) ->
  dict_get (filter p d) k
  = match dict_get d k with
    | Some v => if p (k, v) then Some v else None
    | None => None
    end.
Proof.
  induction d as [|[k0 v0] d IH]; simpl; intros H; [reflexivity|].
  inversion H as [|? ? Hk0 Hd]; subst.
  destruct (String.eqb_spec k k0) as [->|Hk].
  - destruct (p (k0, v0)) eqn:Hp; simpl.
    + now rewrite String.eqb_refl.
    + apply dict_get_None. intros Hin. apply Hk0. eapply keys_filter, Hin.
  - destruct (p (k0, v0)); simpl.
    + destruct (String.eqb_spec k k0); [congruence | now apply IH].
    + now apply IH.
Qed.

Lemma dict_get_app {V} (a b : dict V) (k : string) :
  dict_get (a ++ b) k
  = match dict_get a k with
    | Some v => Some v
    | None => dict_get b k
    end.
Proof.
  induction a as [|[k0 v0] a IH]; simpl; [reflexivity|].
  destruct (String.eqb k k0); [reflexivity | exact IH].
Qed.

(** The last item with a key gives the value of the key. *)
Lemma dict_get_of_last {V} (a b : list (string * V)) (k : string) (v : V) :
  ~ In k (map fst b) ->
  dict_get (dict_of (a ++ (k, v) :: b)) k = Some v.
Proof.
  intros Hb. rewrite dict_get_of, rev_app_distr. cbn [rev].
  rewrite <- app_assoc, dict_get_app.
  assert (E : dict_get (rev b) k = None).
  { apply dict_get_None. unfold keys. rewrite map_rev, <- in_rev. exact Hb. }
  rewrite E. cbn [app dict_get]. now rewrite String.eqb_refl.
Qed.

Lemma dict_set_fresh {V} (d : dict V) (k : string) (v : V) :
  ~ In k (keys d) -> dict_set k v d = d ++ [(k, v)].
Proof.
  induction d as [|[k0 v0] d IH]; simpl; intros H; [reflexivity|].
  destruct (String.eqb_spec k k0) as [->|Hk]; [tauto|].
  f_equal. apply IH. tauto.
Qed.

(** Items with distinct keys are kept as they are. *)
Lemma dict_of_NoDup {V} (items : list (string * V)) :
  NoDup (map fst items) -> dict_of items = items.
Proof.
  unfold dict_of.
  assert (H : forall d : dict V, NoDup (keys d ++ map fst items) ->
            fold_left (fun d kv => dict_set (fst kv) (snd kv) d) items d
            = d ++ items).
  { induction items as [|[k v] items IH]; intros d Hd; simpl.
    - now rewrite app_nil_r.
    - cbn [map fst] in Hd. pose proof (NoDup_remove_2 _ _ _ Hd) as Hk.
      rewrite dict_set_fresh by (intros Hin; apply Hk, in_or_app; now left).
      rewrite IH.
      + now rewrite <- app_assoc.
      + unfold keys. rewrite map_app. cbn [map fst].
        now rewrite <- app_assoc. }
  intros Hnd. now apply (H []).
Qed.

End DictFacts.

(** ** Properties of sets, sorting and the topological order *)

Module SetFacts.

Import Py.

Lemma mem_In (x : string) (l : list string) : mem x l = true <-> In x l.
Proof.
  unfold mem. rewrite existsb_exists. split.
  - intros [y [Hy Heq]]. apply String.eqb_eq in Heq. now subst.
  - intros H. exists x. split; [exact H | apply String.eqb_refl].
Qed.

Section SetOf.

Context {A : Type} (eqb : A -> A -> bool).
Hypothesis eqb_eq : forall x y, eqb x y = true <-> x = y.

Lemma set_of_In (l : list A) (x : A) : In x (set_of eqb l) <-> In x l.
Proof.
  induction l as [|y l IH]; simpl; [tauto|].
  rewrite filter_In, IH. split.
  - intuition.
  - intros [->|H]; [now left|].
    destruct (eqb y x) eqn:E.
    + left. now apply eqb_eq.
    + right. split; [exact H | reflexivity].
Qed.

Lemma set_of_NoDup (l : list A) : NoDup (set_of eqb l).
Proof.
  induction l as [|y l IH]; simpl; constructor.
  - rewrite filter_In. intros [_ H].
    assert (E : eqb y y = true) by now apply eqb_eq.
    rewrite E in H. discriminate H.
  - now apply NoDup_filter.
Qed.

End SetOf.

Lemma pair_eqb_eq (a b : string * string) : pair_eqb a b = true <-> a = b.
Proof.
  unfold pair_eqb. destruct a as [a1 a2], b as [b1 b2]. simpl.
  rewrite andb_true_iff, !String.eqb_eq. split.
  - now intros [-> ->].
  - intros H. now inversion H.
Qed.

Lemma attr_eqb_eq (a b : string * bool) : attr_eqb a b = true <-> a = b.
Proof.
  unfold attr_eqb. destruct a as [a1 a2], b as [b1 b2]. simpl.
  rewrite andb_true_iff, String.eqb_eq, Bool.eqb_true_iff. split.
  - now intros [-> ->].
  - intros H. now inversion H.
Qed.

(** *** [sorted] *)

Lemma insert_sorted_In (x y : string) (l : list string) :
  In y (insert_sorted x l) <-> y = x \/ In y l.
Proof.
  induction l as [|z l IH]; simpl.
  - intuition.
  - destruct (String.leb x z); simpl; [intuition | rewrite IH; intuition].
Qed.

Lemma sorted_In (y : string) (l : list string) : In y (sorted l) <-> In y l.
Proof.
  unfold sorted. induction l as [|z l IH]; simpl; [tauto|].
  rewrite insert_sorted_In, IH. intuition.
Qed.

Lemma insert_sorted_NoDup (x : string) (l : list string) :
  ~ In x l -> NoDup l -> NoDup (insert_sorted x l).
Proof.
  induction l as [|z l IH]; simpl; intros Hx Hl.
  - constructor; [tauto | constructor].
  - destruct (String.leb x z).
    + constructor; [simpl; tauto | exact Hl].
    + inversion Hl as [|? ? Hz Hl']; subst. constructor.
      * rewrite insert_sorted_In. intuition.
      * apply IH; tauto.
Qed.

Lemma sorted_NoDup (l : list string) : NoDup l -> NoDup (sorted l).
Proof.
  unfold sorted. induction l as [|z l IH]; simpl; intros H; [constructor|].
  inversion H; subst. apply insert_sorted_NoDup.
  - now rewrite (sorted_In z l).
  - now apply IH.
Qed.

Lemma insert_sorted_Sorted (x : string) (l : list string) :
  Sorted (fun a b => String.leb a b = true) l ->
  Sorted (fun a b => String.leb a b = true) (insert_sorted x l).
Proof.
  induction l as [|z l IH]; simpl; intros H.
  - repeat constructor.
  - destruct (String.leb x z) eqn:E.
    + constructor; [exact H | constructor; exact E].
    + inversion H as [|? ? Hl Hhd]; subst. constructor; [now apply IH|].
      assert (Hzx : String.leb z x = true).
      { destruct (String.leb_total x z) as [C|C]; [congruence | exact C]. }
      destruct l as [|w l]; simpl.
      * constructor; exact Hzx.
      * destruct (String.leb x w); constructor; [exact Hzx|].
        now inversion Hhd.
Qed.

Lemma sorted_Sorted (l : list string) :
  Sorted (fun a b => String.leb a b = true) (sorted l).
Proof.
  unfold sorted. induction l as [|z l IH]; simpl.
  - constructor.
  - now apply insert_sorted_Sorted.
Qed.

End SetFacts.

Module TopsortFacts.

Import Topsort.

Lemma ready_spec (order : list (string * string)) (placed : list string)
    (n : string) :
  ready order placed n = true <-> (forall b, In (n, b) order -> In b placed).
Proof.
  unfold ready. rewrite forallb_forall. split.
  - intros H b Hin. specialize (H (n, b) Hin). simpl in H.
    rewrite String.eqb_refl in H. simpl in H. now apply SetFacts.mem_In.
  - intros H [c b] Hin. simpl.
    destruct (String.eqb_spec c n) as [->|Hc]; simpl; [|reflexivity].
    apply SetFacts.mem_In, H, Hin.
Qed.

Lemma bases_first_snoc (order : list (string * string)) (l : list string)
    (n : string) :
  bases_first order l ->
  (forall b, In (n, b) order -> In b l) ->
  bases_first order (l ++ [n]).
Proof.
  intros Hl Hn l1 c l2 b Heq Hin.
  induction l2 as [|z l2' _] using rev_ind.
  - apply app_inj_tail in Heq. destruct Heq as [<- <-]. now apply Hn.
  - change (l1 ++ c :: l2' ++ [z]) with (l1 ++ (c :: l2') ++ [z]) in Heq.
    rewrite app_assoc in Heq. apply app_inj_tail in Heq.
    destruct Heq as [Heq _]. now apply (Hl l1 c l2' b).
Qed.

Lemma bases_first_nil (order : list (string * string)) : bases_first order [].
Proof. intros l1 c l2 b H. destruct l1; discriminate H. Qed.

Lemma loop_sound (order : list (string * string)) (fuel : nat) :
  forall pending placed l,
    loop fuel order pending placed = Some l ->
    NoDup placed ->
    (forall x, In x pending -> ~ In x placed) ->
    bases_first order (rev placed) ->
    NoDup l /\ bases_first order l /\
    (forall x, In x l <-> In x placed \/ In x pending).
Proof.
  induction fuel as [|fuel IH]; intros pending placed l Hrun Hnd Hdis Hbf.
  - destruct pending; [|discriminate Hrun].
    simpl in Hrun. inversion Hrun; subst. split; [|split].
    + now apply NoDup_rev.
    + exact Hbf.
    + intros x. rewrite <- in_rev. simpl. tauto.
  - destruct pending as [|p ps].
    + simpl in Hrun. inversion Hrun; subst. split; [|split].
      * now apply NoDup_rev.
      * exact Hbf.
      * intros x. rewrite <- in_rev. simpl. tauto.
    + cbn [loop] in Hrun.
      destruct (find (ready order placed) (p :: ps)) as [n|] eqn:Hfind;
        [|discriminate Hrun].
      apply find_some in Hfind. destruct Hfind as [Hn Hready].
      apply IH in Hrun.
      * destruct Hrun as (H1 & H2 & H3). split; [exact H1|].
        split; [exact H2|]. intros x. rewrite H3. cbn [In]. split.
        -- intros [[<-|Hx]|Hx]; [right; exact Hn | now left |].
           right. now apply in_remove in Hx.
        -- intros [Hx|Hx]; [left; now right|].
           destruct (string_dec x n) as [->|Hne]; [left; now left|].
           right. now apply in_in_remove.
      * constructor; [now apply Hdis | exact Hnd].
      * intros x Hx [<-|Hin].
        -- apply in_remove in Hx. destruct Hx as [_ Hx]. now apply Hx.
        -- apply in_remove in Hx. destruct Hx as [Hx _]. now apply (Hdis x).
      * simpl. apply bases_first_snoc; [exact Hbf|].
        intros b Hb. rewrite <- in_rev.
        now apply (proj1 (ready_spec order placed n) Hready).
Qed.

(** The order computed by [topsort] has no repetition, puts every base
    before its classes and contains exactly the given nodes. *)
Lemma topsort_sound (nodes : list string) (order : list (string * string))
    (l : list string) :
  topsort nodes order = Some l ->
  NoDup l /\ bases_first order l /\ (forall x, In x l <-> In x nodes).
Proof.
  unfold topsort. intros H. apply loop_sound in H.
  - destruct H as (H1 & H2 & H3). split; [exact H1|]. split; [exact H2|].
    intros x. rewrite H3. simpl. tauto.
  - constructor.
  - intros x _ [].
  - apply bases_first_nil.
Qed.

(** The first name of [l] that is still pending. *)
Lemma first_pending (pending l : list string) (x : string) :
  In x l -> In x pending ->
  exists l1 y l2,
    l = l1 ++ y :: l2 /\ In y pending /\ (forall z, In z l1 -> ~ In z pending).
Proof.
  induction l as [|a l IH]; intros Hl Hp; [contradiction|].
  destruct (in_dec string_dec a pending) as [Ha|Ha].
  - exists [], a, l. split; [reflexivity|]. split; [exact Ha|]. intros z [].
  - destruct Hl as [->|Hl]; [contradiction|].
    destruct (IH Hl Hp) as (l1 & y & l2 & -> & Hy & Hl1).
    exists (a :: l1), y, l2. split; [reflexivity|]. split; [exact Hy|].
    intros z [<-|Hz]; [exact Ha | now apply Hl1].
Qed.

(** The loop fails only when no pending name is ready: as long as some
    order [l] of the names puts every base first, it finds a name to
    place and the fuel lasts. *)
Lemma loop_complete (order : list (string * string)) (l : list string)
    (fuel : nat) :
  bases_first order l ->
  forall pending placed,
    List.length pending <= fuel ->
    (forall x, In x pending -> In x l) ->
    (forall x, In x l -> In x pending \/ In x placed) ->
    exists r, loop fuel order pending placed = Some r.
Proof.
  intros Hbf. induction fuel as [|fuel IH]; intros pending placed Hlen Hsub Hcov.
  - destruct pending; [|simpl in Hlen; lia]. now eexists.
  - destruct pending as [|p ps]; [now eexists|].
    cbn [loop].
    destruct (@first_pending (p :: ps) l p (Hsub p (or_introl eq_refl))
                (or_introl eq_refl))
      as (l1 & y & l2 & Hl & Hy & Hl1).
    destruct (find (ready order placed) (p :: ps)) as [n|] eqn:Hfind.
    + apply find_some in Hfind. destruct Hfind as [Hn _].
      apply IH.
      * pose proof (remove_length_lt string_dec (p :: ps) n Hn) as Hlt.
        lia.
      * intros x Hx. apply in_remove in Hx. now apply Hsub.
      * intros x Hx. destruct (string_dec x n) as [->|Hne].
        -- right. now left.
        -- destruct (Hcov x Hx) as [Hp|Hp].
           ++ left. now apply in_in_remove.
           ++ right. now right.
    + exfalso. pose proof (find_none _ _ Hfind y Hy) as Hnr.
      assert (Hr : ready order placed y = true).
      { apply ready_spec. intros b Hb.
        pose proof (Hbf l1 y l2 b Hl Hb) as Hb1.
        destruct (Hcov b) as [Hp|Hp].
        - rewrite Hl. apply in_or_app. now left.
        - exfalso. now apply (Hl1 b).
        - exact Hp. }
      congruence.
Qed.

(** [topsort] returns an order whenever the nodes can be ordered with
    every base first. *)
Lemma topsort_complete (nodes : list string) (order : list (string * string))
    (l : list string) :
  bases_first order l ->
  (forall x, In x nodes <-> In x l) ->
  exists r, topsort nodes order = Some r.
Proof.
  intros Hbf Hsame. unfold topsort.
  apply (loop_complete Hbf).
  - lia.
  - intros x Hx. now apply Hsame.
  - intros x Hx. left. now apply Hsame.
Qed.

(** A base placed before its class splits the order in three. *)
Lemma bases_first_split (order : list (string * string)) (l : list string)
    (c b : string) :
  bases_first order l -> In (c, b) order -> In c l ->
  exists l1 l2 l3, l = l1 ++ b :: l2 ++ c :: l3.
Proof.
  intros Hbf Hcb Hc. apply in_split in Hc. destruct Hc as [la [lc Hl]].
  pose proof (Hbf la c lc b Hl Hcb) as Hb.
  apply in_split in Hb. destruct Hb as [l1 [l2 Hla]].
  exists l1, l2, lc. subst la. rewrite Hl, <- app_assoc. reflexivity.
Qed.

End TopsortFacts.

(** ** The printing methods *)

Module PrintFacts.

Lemma with_output_output (self : PythonModelGenerator) (l : list string) :
  output (with_output self l) = l.
Proof. reflexivity. Qed.

Lemma with_output_twice (self : PythonModelGenerator) (l l' : list string) :
  with_output (with_output self l) l' = with_output self l'.
Proof. reflexivity. Qed.

Lemma indent_line_0 (s : string) : indent_line 0 s = s.
Proof. now destruct s. Qed.

Lemma emits_ret : emits (ret tt) (fun _ => []).
Proof. intros self. unfold ret, with_output. rewrite app_nil_r. now destruct self. Qed.

Lemma emits_print (text : string) :
  emits (print text) (fun i => [indent_line i text]).
Proof. intros self. reflexivity. Qed.

Lemma emits_print_blank : emits print_blank (fun i => [indent_line i ""]).
Proof. intros self. reflexivity. Qed.

Lemma emits_bind (c1 c2 : M unit) (f1 f2 : nat -> list string) :
  emits c1 f1 -> emits c2 f2 ->
  emits (c1 ;; c2) (fun i => f1 i ++ f2 i).
Proof.
  intros H1 H2 self. unfold bind. rewrite H1, H2.
  unfold with_output. simpl. now rewrite app_assoc.
Qed.

Lemma emits_indent (c : M unit) (f : nat -> list string) :
  emits c f -> emits (indent c) (fun i => f (i + 4)).
Proof. intros H self. unfold indent. rewrite H. reflexivity. Qed.

Lemma emits_for_each {A} (l : list A) (body : A -> M unit)
    (f : A -> nat -> list string) :
  (forall x, In x l -> emits (body x) (f x)) ->
  emits (for_each l body) (fun i => flat_map (fun x => f x i) l).
Proof.
  induction l as [|x l IH]; intros H.
  - apply emits_ret.
  - simpl. apply (@emits_bind (body x) (for_each l body) (f x)).
    + apply H. now left.
    + apply IH. intros y Hy. apply H. now right.
Qed.

Lemma emits_ext (c : M unit) (f f' : nat -> list string) :
  (forall i, f i = f' i) -> emits c f -> emits c f'.
Proof. intros E H self. rewrite H, E. reflexivity. Qed.

Ltac emits_step :=
  first [ apply emits_print_blank
        | apply emits_print
        | apply emits_ret
        | apply emits_indent
        | apply emits_bind ].

Lemma emits_gen_base_class (class_name : string) (base : option string) :
  emits (_gen_base_class class_name base)
        (fun i => base_class_lines i class_name base).
Proof.
  unfold _gen_base_class.
  eapply emits_ext; [|repeat emits_step].
  2: { instantiate (1 := fun i => [indent_line i (class_line class_name
         (match base with
          | Some b => if Py.truthy b then Some b else None
          | None => None
          end))]).
       destruct base as [b|]; [destruct (Py.truthy b)|]; apply emits_print. }
  reflexivity.
Qed.

Section Rule.

Variable safe_name : string -> string.

Lemma emits_gen_rule_class (rule : Rule) (specs : list BaseClassSpec) :
  emits (_gen_rule_class safe_name rule specs)
        (fun i => rule_class_lines safe_name i rule specs).
Proof.
  unfold _gen_rule_class, rule_class_lines.
  destruct specs as [|spec specs]; [apply emits_ret|].
  assert (Hpass : emits (match arguments safe_name rule with
                         | [] => print "pass"
                         | _ :: _ => ret tt
                         end)
                    (fun i => match arguments safe_name rule with
                              | [] => [indent_line i "pass"]
                              | _ :: _ => []
                              end)).
  { destruct (arguments safe_name rule); [apply emits_print | apply emits_ret]. }
  assert (Hargs : emits (for_each (arguments safe_name rule)
                           (fun arg => print (arg ++ ": Any = None")%string))
                    (fun i => map (fun arg =>
                                     indent_line i (arg ++ ": Any = None")%string)
                                (arguments safe_name rule))).
  { eapply emits_ext; [|apply emits_for_each; intros x _; apply emits_print].
    clear Hpass. intros i. cbv beta.
    induction (arguments safe_name rule) as [|a l IH];
      simpl; [reflexivity | now rewrite IH]. }
  eapply emits_ext;
    [| apply emits_bind; [apply emits_print_blank|];
       apply emits_bind; [apply emits_print_blank|];
       apply emits_bind; [apply emits_print|];
       apply emits_bind; [apply emits_print|];
       apply emits_indent;
       apply emits_bind; [exact Hpass | exact Hargs] ].
  reflexivity.
Qed.

End Rule.

End PrintFacts.

(** ** The dictionaries of [generate_model] *)

Section GeneratorFacts.

Variable safe_name : string -> string.
Variable is_builtin : string -> bool.

Local Abbreviation specs_of := (_base_class_specs safe_name).

Lemma dict_get_by_name {V} (f : Rule -> V) (l : list Rule) (k : string) :
  Py.dict_get (map (fun r => (name r, f r)) l) k
  = option_map f (Py.dict_get (map (fun r => (name r, r)) l) k).
Proof.
  induction l as [|r l IH]; simpl; [reflexivity|].
  destruct (String.eqb k (name r)); [reflexivity | exact IH].
Qed.

(** The rule indexed under a name is the last rule of the grammar with
    that name. *)
Lemma rule_index_get (g : Grammar) (k : string) :
  Py.dict_get (rule_index g) k
  = Py.dict_get (map (fun r => (name r, r)) (rev (rules g))) k.
Proof. unfold rule_index. now rewrite DictFacts.dict_get_of, map_rev. Qed.

Lemma rule_index_sound (g : Grammar) (k : string) (r : Rule) :
  Py.dict_get (rule_index g) k = Some r -> In r (rules g) /\ name r = k.
Proof.
  rewrite rule_index_get. intros H. apply DictFacts.dict_get_In in H.
  apply in_map_iff in H. destruct H as [r' [Heq Hin]].
  inversion Heq; subst. split; [now apply in_rev | reflexivity].
Qed.

Lemma rule_specs_get (g : Grammar) (k : string) :
  Py.dict_get (rule_specs safe_name g) k
  = match Py.dict_get (rule_index g) k with
    | Some r => match specs_of r with
                | [] => None
                | _ :: _ => Some (specs_of r)
                end
    | None => None
    end.
Proof.
  unfold rule_specs.
  rewrite DictFacts.dict_get_filter by apply DictFacts.NoDup_keys_of.
  rewrite DictFacts.dict_get_of, <- map_rev, dict_get_by_name.
  rewrite <- rule_index_get.
  destruct (Py.dict_get (rule_index g) k) as [r|]; simpl; [|reflexivity].
  now destruct (specs_of r).
Qed.

(** Every list kept in [rule_specs] is the non-empty chain of the rule
    indexed under the same name. *)
Lemma rule_specs_nonempty (g : Grammar) (k : string) (specs : list BaseClassSpec) :
  Py.dict_get (rule_specs safe_name g) k = Some specs ->
  specs <> [] /\
  exists r, Py.dict_get (rule_index g) k = Some r /\ specs = specs_of r.
Proof.
  rewrite rule_specs_get.
  destruct (Py.dict_get (rule_index g) k) as [r|]; [|discriminate].
  destruct (specs_of r) as [|s l] eqn:E; [discriminate|].
  intros H. inversion H; subst. split; [discriminate|].
  exists r. split; [reflexivity | now rewrite E].
Qed.

Lemma NoDup_keys_rule_index (g : Grammar) : NoDup (Py.keys (rule_index g)).
Proof. apply DictFacts.NoDup_keys_of. Qed.

Lemma NoDup_keys_rule_specs (g : Grammar) :
  NoDup (Py.keys (rule_specs safe_name g)).
Proof. apply DictFacts.NoDup_keys_filter, DictFacts.NoDup_keys_of. Qed.

Lemma rule_specs_In (g : Grammar) (k : string) (specs : list BaseClassSpec) :
  In (k, specs) (rule_specs safe_name g) <->
  Py.dict_get (rule_specs safe_name g) k = Some specs.
Proof.
  split.
  - apply DictFacts.In_dict_get, NoDup_keys_rule_specs.
  - apply DictFacts.dict_get_In.
Qed.

(** The items from which [model_to_rule] is built. *)
Lemma model_to_rule_item (g : Grammar) (n : string) (rule : Rule) :
  In (n, rule)
     (flat_map
        (fun item =>
           match Py.dict_get (rule_specs safe_name g) (fst item) with
           | Some (s :: _) => [(class_name s, snd item)]
           | _ => []
           end)
        (rule_index g)) <->
  Py.dict_get (rule_index g) (name rule) = Some rule /\
  exists s rest, specs_of rule = s :: rest /\ class_name s = n.
Proof.
  rewrite in_flat_map. split.
  - intros [[k r] [Hin Hitem]]. simpl in Hitem.
    apply (DictFacts.In_dict_get _ _ _ (NoDup_keys_rule_index g)) in Hin.
    destruct (rule_index_sound _ _ Hin) as [_ Hname]. subst k.
    rewrite rule_specs_get, Hin in Hitem.
    destruct (specs_of r) as [|s rest] eqn:E; [contradiction|].
    destruct Hitem as [Heq|[]]. inversion Heq; subst.
    split; [exact Hin|]. exists s, rest. now rewrite E.
  - intros [Hin [s [rest [E Hn]]]]. exists (name rule, rule). split.
    + now apply DictFacts.dict_get_In.
    + simpl. rewrite rule_specs_get, Hin, E. left. now subst n.
Qed.

(** The rule registered for a class name has that name as the class of its
    first spec, and its chain is found in [rule_specs] under its name. *)
Lemma model_to_rule_sound (g : Grammar) (n : string) (rule : Rule) :
  Py.dict_get (model_to_rule safe_name g) n = Some rule ->
  exists s rest,
    specs_of rule = s :: rest /\ class_name s = n /\
    Py.dict_get (rule_specs safe_name g) (name rule) = Some (s :: rest) /\
    Py.dict_get (rule_index g) (name rule) = Some rule.
Proof.
  unfold model_to_rule. rewrite DictFacts.dict_get_of. intros H.
  apply DictFacts.dict_get_In, in_rev, model_to_rule_item in H.
  destruct H as [Hin [s [rest [E Hn]]]]. exists s, rest.
  repeat split; try assumption.
  now rewrite rule_specs_get, Hin, E.
Qed.

(** One turn of the loop never raises: the lookup [rule_specs[rule.name]]
    always succeeds. *)
Lemma emits_emit_model (g : Grammar) (btn : string) (n : string) :
  emits (emit_model safe_name is_builtin g btn n)
        (fun i => emit_lines safe_name is_builtin g btn i n).
Proof.
  unfold emit_model, emit_lines.
  destruct (is_builtin n); [apply PrintFacts.emits_ret|].
  destruct (Py.dict_get (model_to_rule safe_name g) n) as [rule|] eqn:E.
  - destruct (model_to_rule_sound _ _ E) as [s [rest [Hs [_ [Hget _]]]]].
    rewrite Hget, Hs. apply PrintFacts.emits_gen_rule_class.
  - apply PrintFacts.emits_gen_base_class.
Qed.

(** [generate_model] raises exactly when the class names cannot be ordered;
    otherwise it appends the preamble and the lines of every turn of the
    loop to the buffer and returns the text of the buffer. *)
Lemma generate_model_run (g : Grammar) (self : PythonModelGenerator) :
  let btn := base_type_name (base_type self) in
  let name := name_or (self_name self) g in
  generate_model safe_name is_builtin g self
  = match model_names safe_name g btn with
    | None =>
        (Raise (ValueError "There are cycles"),
         mkGen (base_type self) (Some name) (indentation self)
           (output self
            ++ map (indent_line (indentation self))
                 (trim (HEADER name (base_type_import (base_type self))))))
    | Some names =>
        let out :=
          output self
          ++ map (indent_line (indentation self))
               (trim (HEADER name (base_type_import (base_type self))))
          ++ flat_map (emit_lines safe_name is_builtin g btn (indentation self))
               names in
        (Ok (unlines out),
         mkGen (base_type self) (Some name) (indentation self) out)
    end.
Proof.
  intros btn name. unfold generate_model. fold btn. fold name.
  unfold bind at 1. unfold set_name at 1. unfold bind at 1.
  unfold print_block at 1. cbn [base_type self_name indentation output].
  destruct (model_names safe_name g btn) as [names|]; [|reflexivity].
  unfold bind.
  rewrite (@PrintFacts.emits_for_each _ names
             (emit_model safe_name is_builtin g btn)
             (fun n i => emit_lines safe_name is_builtin g btn i n)
             (fun n _ => emits_emit_model g btn n)).
  unfold printed_text, with_output.
  cbn [base_type self_name indentation output].
  now rewrite <- app_assoc.
Qed.

End GeneratorFacts.

(** ** Lines that open a class declaration *)

Module LineFacts.

Lemma length_append (a b : string) :
  String.length (a ++ b) = String.length a + String.length b.
Proof. induction a as [|c a IH]; simpl; [reflexivity | now rewrite IH]. Qed.

Lemma append_inj_r (a b c : string) : (a ++ c)%string = (b ++ c)%string -> a = b.
Proof.
  revert b. induction a as [|x a IH]; intros [|y b] H.
  - reflexivity.
  - apply (f_equal String.length) in H. simpl in H.
    rewrite length_append in H. lia.
  - apply (f_equal String.length) in H. simpl in H.
    rewrite length_append in H. lia.
  - simpl in H. inversion H. f_equal. now apply IH.
Qed.

Lemma prefix_refl_app (a b : string) : String.prefix a (a ++ b) = true.
Proof.
  induction a as [|c a IH]; simpl; [now destruct b|].
  destruct (ascii_dec c c); [exact IH | congruence].
Qed.

Lemma paren_free_cons (c : ascii) (s : string) :
  paren_free (String c s) = true -> c <> "("%char /\ paren_free s = true.
Proof.
  simpl. intros H. apply andb_prop in H. destruct H as [Hc Hs].
  apply negb_true_iff, Ascii.eqb_neq in Hc. tauto.
Qed.

Lemma prefix_cons (a b : ascii) (s1 s2 : string) :
  String.prefix (String a s1) (String b s2)
  = if ascii_dec a b then String.prefix s1 s2 else false.
Proof. reflexivity. Qed.

(** Two names without parenthesis that agree up to the first parenthesis
    are equal. *)
Lemma prefix_paren (n m r : string) :
  paren_free n = true -> paren_free m = true ->
  String.prefix (n ++ "(") (m ++ String "(" r) = true -> n = m.
Proof.
  revert m. induction n as [|c n IH]; intros [|d m] Hn Hm H.
  - reflexivity.
  - apply paren_free_cons in Hm. cbn [append] in H.
    rewrite prefix_cons in H.
    destruct (ascii_dec "(" d) as [E|E]; [|discriminate]. subst d. tauto.
  - apply paren_free_cons in Hn. cbn [append] in H.
    rewrite prefix_cons in H.
    destruct (ascii_dec c "(") as [E|E]; [|discriminate]. tauto.
  - apply paren_free_cons in Hn. apply paren_free_cons in Hm.
    cbn [append] in H. rewrite prefix_cons in H.
    destruct (ascii_dec c d) as [E|E]; [|discriminate]. subst d. f_equal.
    apply IH; tauto.
Qed.

Lemma prefix_paren_colon (n m : string) :
  paren_free m = true -> String.prefix (n ++ "(") (m ++ ":") = false.
Proof.
  revert m. induction n as [|c n IH]; intros [|d m] Hm.
  - reflexivity.
  - apply paren_free_cons in Hm. cbn [append]. rewrite prefix_cons.
    destruct (ascii_dec "(" d) as [E|E]; [|reflexivity]. subst d. tauto.
  - cbn [append]. rewrite prefix_cons.
    destruct (ascii_dec c ":") as [E|E]; [|reflexivity].
    now destruct n.
  - apply paren_free_cons in Hm. cbn [append]. rewrite prefix_cons.
    destruct (ascii_dec c d) as [E|E]; [|reflexivity]. apply IH. tauto.
Qed.

Lemma paren_not_colon (n m r : string) :
  paren_free n = true -> (m ++ String "(" r)%string <> (n ++ ":")%string.
Proof.
  revert n. induction m as [|c m IH]; intros [|d n] Hn H.
  - discriminate H.
  - apply paren_free_cons in Hn. simpl in H. inversion H. subst d. tauto.
  - simpl in H. inversion H. destruct m; discriminate.
  - apply paren_free_cons in Hn. simpl in H. inversion H.
    apply (IH n); tauto.
Qed.

Lemma declares_class_prefix (n rest : string) :
  declares n ("class " ++ rest)
  = (String.prefix (n ++ "(") rest || String.eqb rest (n ++ ":"))%bool.
Proof. reflexivity. Qed.

(** A class line declares its own class. *)
Lemma declares_class_line (n : string) (b : option string) :
  declares n (class_line n b) = true.
Proof.
  destruct b as [b|]; unfold class_line; rewrite declares_class_prefix.
  - change (n ++ "(" ++ b ++ "):")%string with (n ++ ("(" ++ (b ++ "):")))%string.
    rewrite <- PyFacts.append_assoc, prefix_refl_app. reflexivity.
  - rewrite String.eqb_refl. apply orb_true_r.
Qed.

(** A class line declares no other class, when the names have no
    parenthesis. *)
Lemma declares_class_line_inv (n m : string) (b : option string) :
  paren_free n = true -> paren_free m = true ->
  declares n (class_line m b) = true -> n = m.
Proof.
  intros Hn Hm H. destruct b as [b|]; unfold class_line in H;
    rewrite declares_class_prefix in H; apply orb_prop in H;
    destruct H as [H|H].
  - now apply (@prefix_paren n m (b ++ "):")).
  - apply String.eqb_eq in H. exfalso.
    now apply (@paren_not_colon n m (b ++ "):")).
  - now rewrite prefix_paren_colon in H.
  - apply String.eqb_eq in H. symmetry. now apply (@append_inj_r m n ":").
Qed.

Lemma declares_blank (n : string) : declares n "" = false.
Proof. reflexivity. Qed.

Lemma declares_decorator (n : string) : declares n "@dataclass(eq=False)" = false.
Proof. reflexivity. Qed.

Lemma declares_indented (n s : string) : declares n (String " " s) = false.
Proof. reflexivity. Qed.

Lemma indent_line_4 (c : ascii) (s : string) :
  indent_line 4 (String c s) = String " " ("   " ++ String c s).
Proof. reflexivity. Qed.

Lemma declares_pass (n : string) : declares n (indent_line 4 "pass") = false.
Proof. reflexivity. Qed.

Lemma declares_field (n arg : string) :
  declares n (indent_line 4 (arg ++ ": Any = None")) = false.
Proof. destruct arg; reflexivity. Qed.

Lemma field_line_indent (arg : string) :
  indent_line 4 (arg ++ ": Any = None") = field_line arg.
Proof. destruct arg; reflexivity. Qed.

End LineFacts.

(** ** The blocks printed by the loop *)

Section EmissionFacts.

Variable safe_name : string -> string.
Variable is_builtin : string -> bool.

Local Abbreviation specs_of := (_base_class_specs safe_name).
Local Abbreviation emit := (emit_lines safe_name is_builtin).

(** The turn of a name that is not built in prints two blank lines, the
    decorator, the class line and an indented body. *)
Lemma emit_lines_shape (g : Grammar) (btn m : string) :
  is_builtin m = false ->
  exists rest,
    emit g btn 0 m
    = [""; ""; "@dataclass(eq=False)"; decl_line safe_name g btn m] ++ rest /\
    (forall n, declarations n rest = []).
Proof.
  intros Hb. unfold emit_lines, decl_line. rewrite Hb.
  destruct (Py.dict_get (model_to_rule safe_name g) m) as [rule|] eqn:E.
  - destruct (@model_to_rule_sound _ _ _ _ E) as [s [rest [Hs _]]]. rewrite Hs.
    unfold rule_class_lines. rewrite !PrintFacts.indent_line_0.
    eexists. split; [reflexivity|]. intros n. unfold declarations.
    destruct (arguments safe_name rule) as [|a l]; [reflexivity|].
    cbn [app]. induction (a :: l) as [|x xs IH]; [reflexivity|].
    cbn [map filter]. change (0 + 4) with 4.
    now rewrite LineFacts.declares_field.
  - unfold base_class_lines. rewrite !PrintFacts.indent_line_0.
    eexists. split; [reflexivity|]. intros n. reflexivity.
Qed.

Lemma emit_lines_builtin (g : Grammar) (btn m : string) (i : nat) :
  is_builtin m = true -> emit g btn i m = [].
Proof. intros Hb. unfold emit_lines. now rewrite Hb. Qed.

Lemma declares_decl_line (g : Grammar) (btn m : string) :
  declares m (decl_line safe_name g btn m) = true.
Proof.
  unfold decl_line.
  destruct (Py.dict_get (model_to_rule safe_name g) m) as [rule|] eqn:E.
  - destruct (@model_to_rule_sound _ _ _ _ E) as [s [rest [Hs [Hn _]]]].
    rewrite Hs, Hn. apply LineFacts.declares_class_line.
  - apply LineFacts.declares_class_line.
Qed.

Lemma decl_line_inv (g : Grammar) (btn n m : string) :
  paren_free n = true -> paren_free m = true ->
  declares n (decl_line safe_name g btn m) = true -> n = m.
Proof.
  unfold decl_line. intros Hn Hm.
  destruct (Py.dict_get (model_to_rule safe_name g) m) as [rule|] eqn:E.
  - destruct (@model_to_rule_sound _ _ _ _ E) as [s [rest [Hs [Hc _]]]].
    rewrite Hs, Hc. now apply LineFacts.declares_class_line_inv.
  - now apply LineFacts.declares_class_line_inv.
Qed.

(** Among the lines of a turn only the class line opens a declaration,
    and it declares the name of the turn. *)
Lemma declarations_emit (g : Grammar) (btn n m : string) :
  paren_free n = true -> paren_free m = true ->
  declarations n (emit g btn 0 m)
  = if (negb (is_builtin m) && String.eqb m n)%bool
    then [decl_line safe_name g btn m] else [].
Proof.
  intros Hn Hm. destruct (is_builtin m) eqn:Hb.
  - now rewrite emit_lines_builtin.
  - destruct (@emit_lines_shape g btn m Hb) as [rest [-> Hrest]].
    unfold declarations in *. rewrite filter_app, Hrest, app_nil_r.
    cbn [filter negb andb].
    rewrite LineFacts.declares_blank, LineFacts.declares_decorator.
    destruct (String.eqb_spec m n) as [->|Hne].
    + now rewrite declares_decl_line.
    + destruct (declares n (decl_line safe_name g btn m)) eqn:D;
        [|reflexivity].
      apply decl_line_inv in D; congruence.
Qed.

Lemma declarations_flat_map (g : Grammar) (btn n : string) (names : list string) :
  NoDup names ->
  forallb paren_free names = true ->
  paren_free n = true ->
  declarations n (flat_map (emit g btn 0) names)
  = if (Py.mem n names && negb (is_builtin n))%bool
    then [decl_line safe_name g btn n] else [].
Proof.
  intros Hnd Hpf Hn. induction names as [|m names IH].
  - reflexivity.
  - inversion Hnd as [|? ? Hm Hnd']; subst.
    cbn [forallb] in Hpf. apply andb_prop in Hpf. destruct Hpf as [Hpm Hpf].
    cbn [flat_map]. unfold declarations in *.
    rewrite filter_app. fold (declarations n (emit g btn 0 m)).
    rewrite declarations_emit, (IH Hnd' Hpf) by assumption.
    unfold Py.mem. cbn [existsb]. fold (Py.mem n names).
    rewrite (String.eqb_sym n m).
    destruct (String.eqb_spec m n) as [->|Hne].
    + assert (Hmem : Py.mem n names = false).
      { destruct (Py.mem n names) eqn:Hx; [|reflexivity].
        apply SetFacts.mem_In in Hx. contradiction. }
      rewrite Hmem. cbn [orb andb].
      destruct (is_builtin n); reflexivity.
    + rewrite andb_false_r. reflexivity.
Qed.

(** No turn of the loop declares a built-in name, whatever the list of
    names the loop runs over. *)
Lemma declarations_flat_map_builtin (g : Grammar) (btn n : string)
    (names : list string) :
  forallb paren_free names = true ->
  paren_free n = true ->
  is_builtin n = true ->
  declarations n (flat_map (emit g btn 0) names) = [].
Proof.
  intros Hpf Hn Hb. induction names as [|m names IH]; [reflexivity|].
  cbn [forallb] in Hpf. apply andb_prop in Hpf. destruct Hpf as [Hpm Hpf].
  cbn [flat_map]. unfold declarations in *.
  rewrite filter_app. fold (declarations n (emit g btn 0 m)).
  rewrite declarations_emit, (IH Hpf) by assumption.
  destruct (String.eqb_spec m n) as [->|Hne].
  - now rewrite Hb.
  - now rewrite andb_false_r.
Qed.

Lemma map_indent_line_0 (l : list string) : map (indent_line 0) l = l.
Proof.
  induction l as [|x l IH]; simpl; [reflexivity|].
  now rewrite PrintFacts.indent_line_0, IH.
Qed.

(** The run of [generate_model] on a generator just created. *)
Lemma generate_model_fresh (g : Grammar) (name : string) (bt : PyType) :
  generate_model safe_name is_builtin g (__init__ name bt)
  = match model_names safe_name g (base_type_name bt) with
    | None =>
        (Raise (ValueError "There are cycles"),
         mkGen bt (Some (if Py.truthy name then name else grammar_name g))
           0 (preamble name bt g))
    | Some names =>
        let out := preamble name bt g
                   ++ flat_map (emit g (base_type_name bt) 0) names in
        (Ok (unlines out),
         mkGen bt (Some (if Py.truthy name then name else grammar_name g))
           0 out)
    end.
Proof.
  rewrite generate_model_run. cbv zeta.
  cbn [__init__ base_type self_name indentation output].
  rewrite map_indent_line_0. unfold preamble, name_or. cbn [app].
  destruct (model_names safe_name g (base_type_name bt));
    destruct (Py.truthy name) eqn:T; try rewrite T; reflexivity.
Qed.

End EmissionFacts.

(** ** The aggregated hierarchy *)

Section HierarchyFacts.

Variable safe_name : string -> string.

Local Abbreviation specs_of := (_base_class_specs safe_name).

Lemma combine_seq_In {A} (l : list A) (k i : nat) (x : A) :
  In (i, x) (combine (seq k (List.length l)) l) ->
  k <= i /\ nth_error l (i - k) = Some x.
Proof.
  revert k. induction l as [|y l IH]; intros k H; [contradiction|].
  simpl in H. destruct H as [H|H].
  - inversion H; subst. rewrite Nat.sub_diag. split; [lia | reflexivity].
  - apply IH in H. destruct H as [Hk Hn]. split; [lia|].
    replace (i - k) with (S (i - S k)) by lia. exact Hn.
Qed.

Lemma enumerate_In {A} (l : list A) (i : nat) (x : A) :
  In (i, x) (Py.enumerate l) <-> nth_error l i = Some x.
Proof.
  split.
  - intros H. apply combine_seq_In in H. destruct H as [_ H].
    now rewrite Nat.sub_0_r in H.
  - intros H. apply PyFacts.enumerate_nth_error in H.
    eapply nth_error_In, H.
Qed.

(** The base of every spec of a chain is the class of the next spec or the
    root base name. *)
Lemma base_class_specs_closed (r : Rule) (s : BaseClassSpec) :
  In s (specs_of r) ->
  base s = _model_base_name \/
  exists s', In s' (specs_of r) /\ class_name s' = base s.
Proof.
  destruct (params r) as [|[ann| |] rest] eqn:Hp;
    try (unfold _base_class_specs; rewrite Hp; contradiction).
  rewrite (base_class_specs_unfold safe_name _ Hp). cbv zeta.
  set (names := map safe_name (Py.split_dcolon ann)).
  intros H. apply in_map_iff in H. destruct H as [[i n] [Hs Hin]].
  apply enumerate_In in Hin. subst s. cbn [base fst snd].
  assert (Hi : i < List.length names)
    by (apply nth_error_Some; congruence).
  destruct (Nat.eq_dec (i + 1) (List.length names)) as [Hlast|Hmid].
  - left. rewrite app_nth2 by lia.
    replace (i + 1 - List.length names) with 0 by lia. reflexivity.
  - right. rewrite app_nth1 by lia.
    exists (mkSpec (nth (i + 1) names EmptyString)
              (nth (i + 1 + 1) (names ++ [_model_base_name]) EmptyString)).
    split; [|reflexivity].
    apply in_map_iff. exists (i + 1, nth (i + 1) names EmptyString).
    split; [reflexivity|]. apply enumerate_In, nth_error_nth'. lia.
Qed.

Lemma all_specs_In (g : Grammar) (c b : string) :
  In (c, b) (all_specs safe_name g) <->
  exists k specs,
    Py.dict_get (rule_specs safe_name g) k = Some specs /\
    In (mkSpec c b) specs.
Proof.
  unfold all_specs. rewrite (SetFacts.set_of_In _ SetFacts.pair_eqb_eq).
  rewrite in_flat_map. split.
  - intros [[k specs] [Hin Hs]]. cbn [snd] in Hs.
    apply in_map_iff in Hs. destruct Hs as [[c' b'] [Heq Hs]].
    cbn [class_name base] in Heq. inversion Heq; subst.
    exists k, specs. split; [|exact Hs]. now apply rule_specs_In.
  - intros [k [specs [Hget Hs]]]. exists (k, specs). split.
    + now apply rule_specs_In.
    + cbn [snd]. apply in_map_iff. exists (mkSpec c b). now split.
Qed.


(** Every base of an edge other than the root base name is itself the
    class of an edge. *)
Lemma all_specs_closed (g : Grammar) (c b : string) :
  In (c, b) (all_specs safe_name g) ->
  b = _model_base_name \/ exists b', In (b, b') (all_specs safe_name g).
Proof.
  intros H. apply all_specs_In in H. destruct H as [k [specs [Hget Hs]]].
  destruct (rule_specs_nonempty _ _ _ Hget) as [_ [r [_ ->]]].
  destruct (base_class_specs_closed _ _ Hs) as [Hb|[[c' b'] [Hs' Hc]]].
  - now left.
  - right. cbn [class_name base] in *. subst c'. exists b'.
    apply all_specs_In. now exists k, (specs_of r).
Qed.

(** The keys of the base map are the classes of the edges and the root
    base name. *)
Lemma specs_by_name_keys (g : Grammar) (btn c : string) :
  In c (Py.keys (specs_by_name safe_name g btn)) <->
  c = _model_base_name \/ exists b, In (c, b) (all_specs safe_name g).
Proof.
  unfold specs_by_name. rewrite DictFacts.keys_set, DictFacts.keys_of.
  apply or_iff_compat_l. unfold all_specs. split.
  - intros H. apply in_map_iff in H. destruct H as [[c' b] [Hc Hin]].
    cbn [fst] in Hc. subst c'. exists b.
    now apply (proj2 (SetFacts.set_of_In _ SetFacts.pair_eqb_eq _ _)).
  - intros [b H].
    apply (proj1 (SetFacts.set_of_In _ SetFacts.pair_eqb_eq _ _)) in H.
    apply in_map_iff. exists (c, b). now split.
Qed.

(** The root base name is mapped to the simple name of the root type. *)
Lemma specs_by_name_root (g : Grammar) (btn : string) :
  Py.dict_get (specs_by_name safe_name g btn) _model_base_name = Some btn.
Proof.
  unfold specs_by_name. rewrite DictFacts.dict_get_set.
  now rewrite String.eqb_refl.
Qed.

(** The names the loop runs over are the keys of the base map, each once,
    every base before its classes. *)
Lemma model_names_sound (g : Grammar) (btn : string) (names : list string) :
  model_names safe_name g btn = Some names ->
  NoDup names /\
  bases_first (all_specs safe_name g) names /\
  (forall x, In x names <-> In x (Py.keys (specs_by_name safe_name g btn))).
Proof.
  unfold model_names. intros H. apply TopsortFacts.topsort_sound in H.
  destruct H as (H1 & H2 & H3). split; [exact H1|]. split; [exact H2|].
  intros x. rewrite H3. symmetry. apply in_rev.
Qed.

End HierarchyFacts.

(** ** The class linearizer and emitter *)

Section Emitter.

Variable safe_name : string -> string.
Variable is_builtin : string -> bool.

Local Abbreviation specs_of := (_base_class_specs safe_name).
Local Abbreviation emit := (emit_lines safe_name is_builtin).

(** Every class name the loop of [generate_model] runs over has a
    recorded base in [specs_by_name], so [_gen_base_class] is never called
    with [None]: the name of a class that is not the leaf class of a rule
    and not a built-in is emitted by [_gen_base_class] with [Some] base,
    and its class line names that base whenever the base is not the empty
    text.
    This holds because every class of an edge is a key of the base map,
    every base of an edge is [ModelBase] or the class of another edge, and
    [ModelBase] is mapped to the simple name of the root type. *)
Lemma recorded_base_not_none (g : Grammar) (btn : string)
    (names : list string) (n : string) :
  model_names safe_name g btn = Some names ->
  In n names ->
  (exists b,
     Py.dict_get (specs_by_name safe_name g btn) n = Some b /\
     (is_builtin n = false ->
      Py.dict_get (model_to_rule safe_name g) n = None ->
      emit_model safe_name is_builtin g btn n = _gen_base_class n (Some b) /\
      (Py.truthy b = true ->
       emit g btn 0 n
       = [""; ""; "@dataclass(eq=False)"; class_line n (Some b); "    pass"]))) /\
  (forall c b, In (c, b) (all_specs safe_name g) ->
     (exists b', Py.dict_get (specs_by_name safe_name g btn) c = Some b') /\
     (b = "ModelBase" \/ exists b', In (b, b') (all_specs safe_name g))) /\
  Py.dict_get (specs_by_name safe_name g btn) "ModelBase" = Some btn.
Proof.
  intros Hnames Hn.
  destruct (model_names_sound _ _ _ Hnames) as (_ & _ & Hkeys).
  assert (Hget : forall x, In x (Py.keys (specs_by_name safe_name g btn)) ->
            exists b, Py.dict_get (specs_by_name safe_name g btn) x = Some b).
  { intros x Hx.
    destruct (Py.dict_get (specs_by_name safe_name g btn) x) as [b|] eqn:E.
    - now exists b.
    - apply DictFacts.dict_get_None in E. contradiction. }
  split; [|split].
  - destruct (Hget n (proj1 (Hkeys n) Hn)) as [b Hb]. exists b.
    split; [exact Hb|]. intros Hbi Hleaf. split.
    + unfold emit_model. now rewrite Hbi, Hleaf, Hb.
    + intros Ht. unfold emit_lines, base_class_lines.
      rewrite Hbi, Hleaf, Hb, Ht. rewrite !PrintFacts.indent_line_0.
      reflexivity.
  - intros c b Hcb. split.
    + apply Hget, specs_by_name_keys. right. now exists b.
    + now apply all_specs_closed with (c := c).
  - apply specs_by_name_root.
Qed.

(** C2, amended. In the text returned by [generate_model] for a generator
    just created, for every aggregated edge (class, base) whose two names
    are not built-in identifiers the declaration of the base comes before
    the declaration of the class; and when the class is the leaf class of
    the rule registered for it, whose first spec is this edge, its class
    line names that base.  (A built-in name gets no declaration at all.) *)
Theorem base_declared_before_class (g : Grammar) (name : string) (bt : PyType)
    (text : string) (self' : PythonModelGenerator) (c b : string) :
  generate_model safe_name is_builtin g (__init__ name bt) = (Ok text, self') ->
  In (c, b) (all_specs safe_name g) ->
  is_builtin c = false ->
  is_builtin b = false ->
  text = unlines (output self') /\
  base_declared_before (output self') c b /\
  (forall rule,
     Py.dict_get (model_to_rule safe_name g) c = Some rule ->
     hd_error (specs_of rule) = Some (mkSpec c b) ->
     exists l1 l2 l3,
       output self'
       = l1 ++ decl_line safe_name g (base_type_name bt) b
            :: l2 ++ class_line c (Some b) :: l3).
Proof.
  intros Hrun Hcb Hc Hb. rewrite generate_model_fresh in Hrun.
  set (btn := base_type_name bt) in *.
  destruct (model_names safe_name g btn) as [names|] eqn:Hnames;
    [|discriminate Hrun].
  cbv zeta in Hrun. inversion Hrun; subst text self'. clear Hrun.
  cbn [output].
  destruct (model_names_sound _ _ _ Hnames) as (_ & Hbf & Hkeys).
  assert (Hin : In c names).
  { apply Hkeys, specs_by_name_keys. right. now exists b. }
  destruct (@TopsortFacts.bases_first_split _ _ _ _ Hbf Hcb Hin)
    as [n1 [n2 [n3 Hsplit]]].
  destruct (@emit_lines_shape safe_name is_builtin g btn b Hb)
    as [rb [Hlb _]].
  destruct (@emit_lines_shape safe_name is_builtin g btn c Hc)
    as [rc [Hlc _]].
  assert (Hout :
    preamble name bt g ++ flat_map (emit g btn 0) names
    = (preamble name bt g ++ flat_map (emit g btn 0) n1
         ++ [""; ""; "@dataclass(eq=False)"])
      ++ decl_line safe_name g btn b
      :: (rb ++ flat_map (emit g btn 0) n2 ++ [""; ""; "@dataclass(eq=False)"])
      ++ decl_line safe_name g btn c :: (rc ++ flat_map (emit g btn 0) n3)).
  { rewrite Hsplit. rewrite flat_map_app. cbn [flat_map].
    rewrite flat_map_app. cbn [flat_map]. rewrite Hlb, Hlc.
    repeat (rewrite <- app_assoc; cbn [app]). reflexivity. }
  split; [reflexivity|]. split.
  - do 5 eexists. split; [exact Hout|].
    split; apply declares_decl_line.
  - intros rule Hrule Hhd.
    assert (Hdc : decl_line safe_name g btn c = class_line c (Some b)).
    { unfold decl_line. rewrite Hrule.
      destruct (specs_of rule) as [|s rest]; [discriminate Hhd|].
      cbn [hd_error] in Hhd. inversion Hhd; subst s. reflexivity. }
    rewrite Hdc in Hout. do 3 eexists. exact Hout.
Qed.

(** C6. A class name of the sorted names that is a built-in identifier is
    skipped without an error: the generator returns, the turn of that name
    prints nothing, and no line printed after the preamble opens a
    declaration of it, even though the name is an endpoint of an
    aggregated edge. *)
Theorem builtin_name_not_declared (g : Grammar) (name : string) (bt : PyType)
    (names : list string) (n : string) :
  model_names safe_name g (base_type_name bt) = Some names ->
  In n names ->
  is_builtin n = true ->
  forallb paren_free names = true ->
  exists text self' body,
    generate_model safe_name is_builtin g (__init__ name bt) = (Ok text, self') /\
    text = unlines (output self') /\
    output self' = preamble name bt g ++ body /\
    (forall line, In line body -> declares n line = false) /\
    emit g (base_type_name bt) 0 n = [].
Proof.
  intros Hnames Hn Hb Hpf. rewrite generate_model_fresh, Hnames. cbv zeta.
  do 3 eexists. split; [reflexivity|]. cbn [output].
  split; [reflexivity|]. split; [reflexivity|]. split.
  - assert (Hpn : paren_free n = true)
      by (rewrite forallb_forall in Hpf; now apply Hpf).
    pose proof (@declarations_flat_map_builtin safe_name is_builtin g
                  (base_type_name bt) n names Hpf Hpn Hb) as Hd.
    unfold declarations in Hd. intros line Hline.
    destruct (declares n line) eqn:D; [|reflexivity].
    assert (Hf : In line (filter (declares n)
                            (flat_map (emit g (base_type_name bt) 0) names)))
      by (apply filter_In; now split).
    rewrite Hd in Hf. contradiction.
  - now apply emit_lines_builtin.
Qed.

End Emitter.

(** ** Grammars whose rules have distinct names *)

Section UniqueNames.

Variable safe_name : string -> string.
Variable is_builtin : string -> bool.

Local Abbreviation specs_of := (_base_class_specs safe_name).
Local Abbreviation emit := (emit_lines safe_name is_builtin).

Lemma map_fst_by_name {V} (f : Rule -> V) (l : list Rule) :
  map fst (map (fun r => (name r, f r)) l) = map name l.
Proof. rewrite map_map. reflexivity. Qed.

Lemma rule_index_unique (g : Grammar) :
  NoDup (map name (rules g)) ->
  rule_index g = map (fun r => (name r, r)) (rules g).
Proof.
  intros H. unfold rule_index. apply DictFacts.dict_of_NoDup.
  now rewrite map_fst_by_name.
Qed.

Lemma rule_index_get_unique (g : Grammar) (r : Rule) :
  NoDup (map name (rules g)) -> In r (rules g) ->
  Py.dict_get (rule_index g) (name r) = Some r.
Proof.
  intros Hnd Hin. apply DictFacts.In_dict_get.
  - apply NoDup_keys_rule_index.
  - rewrite rule_index_unique by assumption.
    apply in_map_iff. now exists r.
Qed.

Lemma rule_specs_unique (g : Grammar) :
  NoDup (map name (rules g)) ->
  rule_specs safe_name g
  = filter (fun item => match snd item with [] => false | _ :: _ => true end)
      (map (fun r => (name r, specs_of r)) (rules g)).
Proof.
  intros H. unfold rule_specs. f_equal. apply DictFacts.dict_of_NoDup.
  now rewrite map_fst_by_name.
Qed.

Lemma rule_specs_get_unique (g : Grammar) (r : Rule) :
  NoDup (map name (rules g)) -> In r (rules g) ->
  Py.dict_get (rule_specs safe_name g) (name r)
  = match specs_of r with [] => None | _ :: _ => Some (specs_of r) end.
Proof.
  intros Hnd Hin. now rewrite rule_specs_get, rule_index_get_unique.
Qed.

(** The items of [model_to_rule] contributed by a list of rules of the
    grammar. *)
Lemma model_to_rule_items (g : Grammar) (l : list Rule) :
  NoDup (map name (rules g)) -> incl l (rules g) ->
  flat_map
    (fun item =>
       match Py.dict_get (rule_specs safe_name g) (fst item) with
       | Some (s :: _) => [(class_name s, snd item)]
       | _ => []
       end)
    (map (fun r => (name r, r)) l)
  = flat_map (fun r => match specs_of r with
                       | s :: _ => [(class_name s, r)]
                       | [] => []
                       end) l.
Proof.
  intros Hnd Hincl. induction l as [|r l IH]; [reflexivity|].
  cbn [map flat_map fst snd].
  rewrite IH by (intros x Hx; apply Hincl; now right).
  rewrite rule_specs_get_unique by (try assumption; apply Hincl; now left).
  now destruct (specs_of r).
Qed.

Lemma model_to_rule_unique (g : Grammar) :
  NoDup (map name (rules g)) ->
  model_to_rule safe_name g
  = Py.dict_of
      (flat_map (fun r => match specs_of r with
                          | s :: _ => [(class_name s, r)]
                          | [] => []
                          end) (rules g)).
Proof.
  intros Hnd. unfold model_to_rule. rewrite rule_index_unique by assumption.
  rewrite model_to_rule_items; [reflexivity | assumption | apply incl_refl].
Qed.

Lemma rule_class_lines_0 (rule : Rule) (s : BaseClassSpec)
    (rest : list BaseClassSpec) :
  rule_class_lines safe_name 0 rule (s :: rest)
  = [""; ""; "@dataclass(eq=False)"; class_line (class_name s) (Some (base s))]
    ++ match arguments safe_name rule with
       | [] => ["    pass"]
       | _ :: _ => map field_line (arguments safe_name rule)
       end.
Proof.
  unfold rule_class_lines. rewrite !PrintFacts.indent_line_0.
  change (0 + 4) with 4. f_equal.
  destruct (arguments safe_name rule) as [|a l]; [reflexivity|].
  cbn [app]. apply map_ext. intros arg. apply LineFacts.field_line_indent.
Qed.

Lemma not_mem (x : string) (l : list string) : ~ In x l -> Py.mem x l = false.
Proof.
  intros H. destruct (Py.mem x l) eqn:E; [|reflexivity].
  apply SetFacts.mem_In in E. contradiction.
Qed.

(** C10. When several annotated rules have the same leaf class, the rule
    registered for that class is the one that comes last in the rule order
    of the grammar (rule names being distinct).  When the class names can
    be sorted and the class is not a built-in name, the run returns, and
    the text it returns, which is the text of its buffer, holds the class
    with the base and the fields of that last rule alone: the class line
    of its first spec followed by one field per argument of that rule, or
    by [pass] when it has none.  No other line declares the class, so the
    attributes of the other rules with that leaf appear nowhere. *)
Theorem last_rule_with_leaf_wins (g : Grammar) (nm : string) (bt : PyType)
    (names : list string) (l1 l2 : list Rule) (r : Rule) (L : string) :
  rules g = l1 ++ r :: l2 ->
  NoDup (map name (rules g)) ->
  leaf safe_name r = Some L ->
  (forall r', In r' l2 -> leaf safe_name r' <> Some L) ->
  is_builtin L = false ->
  model_names safe_name g (base_type_name bt) = Some names ->
  Py.dict_get (model_to_rule safe_name g) L = Some r /\
  emit_model safe_name is_builtin g (base_type_name bt) L
  = _gen_rule_class safe_name r (specs_of r) /\
  exists b text self' before after,
    hd_error (specs_of r) = Some (mkSpec L b) /\
    generate_model safe_name is_builtin g (__init__ nm bt) = (Ok text, self') /\
    text = unlines (output self') /\
    output self'
    = preamble nm bt g ++ before
      ++ ([""; ""; "@dataclass(eq=False)"; class_line L (Some b)]
          ++ match arguments safe_name r with
             | [] => ["    pass"]
             | _ :: _ => map field_line (arguments safe_name r)
             end)
      ++ after /\
    (forallb paren_free names = true ->
     declarations L before = [] /\ declarations L after = []).
Proof.
  intros Hrules Hnd Hleaf Hlast Hb Hn.
  assert (Hr : In r (rules g)) by (rewrite Hrules; apply in_elt).
  unfold leaf in Hleaf.
  destruct (specs_of r) as [|s rest] eqn:Hs; [discriminate Hleaf|].
  cbn [hd_error option_map] in Hleaf. injection Hleaf as HL.
  assert (Hget : Py.dict_get (model_to_rule safe_name g) L = Some r).
  { rewrite model_to_rule_unique by assumption. rewrite Hrules.
    rewrite flat_map_app. cbn [flat_map]. rewrite Hs, HL. cbn [app].
    apply DictFacts.dict_get_of_last.
    intros Hin. apply in_map_iff in Hin. destruct Hin as [[k r'] [Hk Hin]].
    cbn [fst] in Hk. subst k. apply in_flat_map in Hin.
    destruct Hin as [r'' [Hr'' Hitem]].
    apply (Hlast r'' Hr''). unfold leaf.
    destruct (specs_of r'') as [|s' rest']; [contradiction|].
    destruct Hitem as [Heq|[]]. inversion Heq. reflexivity. }
  assert (Hspecs : Py.dict_get (rule_specs safe_name g) (name r)
                   = Some (specs_of r)).
  { rewrite rule_specs_get_unique by assumption. now rewrite Hs. }
  split; [exact Hget|]. split.
  - unfold emit_model. now rewrite Hb, Hget, Hspecs, Hs.
  - destruct (model_names_sound _ _ _ Hn) as (Hnodup & _ & Hkeys).
    assert (HinL : In L names).
    { apply Hkeys, specs_by_name_keys. right. exists (base s).
      apply all_specs_In. exists (name r), (specs_of r).
      split; [exact Hspecs|]. rewrite Hs, <- HL. destruct s. now left. }
    apply in_split in HinL. destruct HinL as [n1 [n2 Hsplit]].
    exists (base s).
    rewrite generate_model_fresh, Hn. cbv zeta.
    exists (unlines (preamble nm bt g
                     ++ flat_map (emit g (base_type_name bt) 0) names)).
    eexists.
    exists (flat_map (emit g (base_type_name bt) 0) n1),
      (flat_map (emit g (base_type_name bt) 0) n2).
    split; [rewrite <- HL; now destruct s|].
    split; [reflexivity|]. cbn [output]. split; [reflexivity|]. split.
    + f_equal. rewrite Hsplit, flat_map_app. cbn [flat_map]. f_equal.
      f_equal. unfold emit_lines at 1. rewrite Hb, Hget, Hs.
      rewrite rule_class_lines_0. now rewrite HL.
    + intros Hpf. rewrite Hsplit in Hpf, Hnodup.
      rewrite forallb_app in Hpf. apply andb_prop in Hpf.
      destruct Hpf as [Hpf1 Hpf2]. cbn [forallb] in Hpf2.
      apply andb_prop in Hpf2. destruct Hpf2 as [HpL Hpf2].
      pose proof (NoDup_remove_2 _ _ _ Hnodup) as HnotIn.
      pose proof (NoDup_remove_1 _ _ _ Hnodup) as Hnd12.
      split.
      * rewrite (@declarations_flat_map safe_name is_builtin g
                   (base_type_name bt) L n1
                   (NoDup_app_remove_r _ _ Hnd12) Hpf1 HpL).
        rewrite not_mem; [reflexivity|].
        intros Hin. apply HnotIn, in_or_app. now left.
      * rewrite (@declarations_flat_map safe_name is_builtin g
                   (base_type_name bt) L n2
                   (NoDup_app_remove_l _ _ Hnd12) Hpf2 HpL).
        rewrite not_mem; [reflexivity|].
        intros Hin. apply HnotIn, in_or_app. now right.
Qed.

End UniqueNames.

(** ** Rules without a hierarchy annotation *)

Section Unannotated.

Variable safe_name : string -> string.
Variable is_builtin : string -> bool.

Local Abbreviation specs_of := (_base_class_specs safe_name).

Lemma unannotated_specs (rule : Rule) :
  annotated rule = false -> specs_of rule = [].
Proof.
  unfold annotated, _base_class_specs.
  destruct (params rule) as [|[s| |] rest]; intros H;
    [reflexivity | discriminate H | reflexivity | reflexivity].
Qed.

(** The output depends on the grammar only through its name, the chains
    kept in [rule_specs] and the rules registered in [model_to_rule]. *)
Lemma generate_model_ext (g g' : Grammar) (self : PythonModelGenerator) :
  grammar_name g = grammar_name g' ->
  rule_specs safe_name g = rule_specs safe_name g' ->
  model_to_rule safe_name g = model_to_rule safe_name g' ->
  generate_model safe_name is_builtin g self
  = generate_model safe_name is_builtin g' self.
Proof.
  intros Hn Hs Hm. rewrite !generate_model_run. cbv zeta.
  unfold model_names, specs_by_name, all_specs, emit_lines, specs_by_name,
    name_or.
  now rewrite Hn, Hs, Hm.
Qed.

(** C5. For a rule whose parameter list is empty or whose first parameter
    is not a text the extractor returns the empty list (the extractor is a
    total function: nothing is raised); when the rule is the one indexed
    under its name, that name has no entry in [rule_specs]; the rule is
    never registered for a class, so no class is generated from it; and in
    a grammar whose rules have distinct names the output is the one
    obtained without the rule. *)
Theorem unannotated_rule_ignored (rule : Rule) :
  annotated rule = false ->
  specs_of rule = [] /\
  (forall g,
     Py.dict_get (rule_index g) (name rule) = Some rule ->
     Py.dict_get (rule_specs safe_name g) (name rule) = None) /\
  (forall g n, Py.dict_get (model_to_rule safe_name g) n <> Some rule) /\
  (forall gname l1 l2 self,
     NoDup (map name (l1 ++ rule :: l2)) ->
     generate_model safe_name is_builtin (mkGrammar gname (l1 ++ rule :: l2)) self
     = generate_model safe_name is_builtin (mkGrammar gname (l1 ++ l2)) self).
Proof.
  intros Hun. pose proof (unannotated_specs _ Hun) as Hnil.
  split; [exact Hnil|]. split; [|split].
  - intros g Hidx. now rewrite rule_specs_get, Hidx, Hnil.
  - intros g n H. apply model_to_rule_sound in H.
    destruct H as [s [rest [Hs _]]]. congruence.
  - intros gname l1 l2 self Hnd.
    assert (Hnd' : NoDup (map name (l1 ++ l2))).
    { rewrite map_app in *. cbn [map] in Hnd.
      now apply NoDup_remove_1 in Hnd. }
    apply generate_model_ext; [reflexivity| |].
    + rewrite !rule_specs_unique by assumption. cbn [rules].
      rewrite !map_app, !filter_app. cbn [map filter snd].
      now rewrite Hnil.
    + rewrite !model_to_rule_unique by assumption. cbn [rules].
      rewrite !flat_map_app. cbn [flat_map]. now rewrite Hnil.
Qed.

End Unannotated.

(** ** Single emission *)

Section SingleEmission.

Variable safe_name : string -> string.
Variable is_builtin : string -> bool.

Local Abbreviation specs_of := (_base_class_specs safe_name).
Local Abbreviation emit := (emit_lines safe_name is_builtin).




End SingleEmission.

(** ** The class of a rule *)

Section RuleClass.

Variable safe_name : string -> string.

Local Abbreviation args_of := (arguments safe_name).

Lemma arguments_In (rule : Rule) (a : string) :
  In a (args_of rule) <->
  exists d, In d (map fst (defines rule)) /\ a = safe_name d.
Proof.
  unfold arguments, compress_seq. rewrite SetFacts.sorted_In.
  rewrite (SetFacts.set_of_In _ String.eqb_eq). rewrite in_map_iff. split.
  - intros [[d flag] [Ha Hin]].
    apply (proj1 (SetFacts.set_of_In _ SetFacts.attr_eqb_eq _ _)) in Hin.
    exists d. split; [|symmetry; exact Ha].
    apply in_map_iff. now exists (d, flag).
  - intros [d [Hin Ha]]. apply in_map_iff in Hin.
    destruct Hin as [[d' flag] [Hd Hin]]. cbn [fst] in Hd. subst d'.
    exists (d, flag). split; [symmetry; exact Ha|].
    now apply (proj2 (SetFacts.set_of_In _ SetFacts.attr_eqb_eq _ _)).
Qed.

Lemma arguments_NoDup (rule : Rule) : NoDup (args_of rule).
Proof.
  unfold arguments. apply SetFacts.sorted_NoDup.
  apply (SetFacts.set_of_NoDup _ String.eqb_eq).
Qed.

Lemma arguments_Sorted (rule : Rule) :
  Sorted (fun a b => String.leb a b = true) (args_of rule).
Proof. unfold arguments. apply SetFacts.sorted_Sorted. Qed.

(** A sorted list without repetition whose elements are [a], [m] and [z]
    is the list of the three in this order. *)
Lemma sorted_amz (l : list string) :
  NoDup l ->
  Sorted (fun a b => String.leb a b = true) l ->
  (forall x, In x l <-> x = "a" \/ x = "m" \/ x = "z") ->
  l = ["a"; "m"; "z"].
Proof.
  intros Hnd Hs Hin.
  assert (Hle : List.length l <= 3).
  { apply (NoDup_incl_length (l' := ["a"; "m"; "z"]) Hnd).
    intros x Hx. apply Hin in Hx. simpl. intuition. }
  assert (Hge : 3 <= List.length l).
  { apply (@NoDup_incl_length _ ["a"; "m"; "z"] l).
    - repeat constructor; simpl; intuition discriminate.
    - intros x Hx. apply Hin. simpl in Hx. intuition. }
  destruct l as [|x1 [|x2 [|x3 [|x4 l]]]]; simpl in Hle, Hge; try lia.
  assert (H1 := proj1 (Hin x1) (or_introl eq_refl)).
  assert (H2 := proj1 (Hin x2) (or_intror (or_introl eq_refl))).
  assert (H3 := proj1 (Hin x3) (or_intror (or_intror (or_introl eq_refl)))).
  inversion Hnd as [|? ? Hn1 Hnd']; subst.
  inversion Hnd' as [|? ? Hn2 _]; subst.
  inversion Hs as [|? ? Hs' Hh1]; subst.
  inversion Hs' as [|? ? _ Hh2]; subst.
  inversion Hh1 as [|? ? Hl12]; subst. inversion Hh2 as [|? ? Hl23]; subst.
  simpl in Hn1, Hn2.
  destruct H1 as [-> | [-> | ->]]; destruct H2 as [-> | [-> | ->]];
    destruct H3 as [-> | [-> | ->]];
    try reflexivity; try tauto;
    try (vm_compute in Hl12; discriminate Hl12);
    try (vm_compute in Hl23; discriminate Hl23).
Qed.

(** C4. The class of a rule is printed as two blank lines, the decorator,
    the class line with the class and base of the first spec, and one
    field line [arg: Any = None] for every argument, or the line [pass]
    when there is none.  The arguments are the sanitized names of the
    attributes the rule defines, each once, in lexicographic order; a rule
    that defines no attribute has no argument; and a rule that defines
    the attributes z, a and m, in any order and with repetitions, has the
    arguments a, m, z. *)
Theorem gen_rule_class_fields (rule : Rule) (spec : BaseClassSpec)
    (specs : list BaseClassSpec) (self : PythonModelGenerator) :
  let i := indentation self in
  _gen_rule_class safe_name rule (spec :: specs) self
  = (Ok tt,
     with_output self
       (output self
        ++ [ ""; "";
             indent_line i "@dataclass(eq=False)";
             indent_line i
               ("class " ++ class_name spec ++ "(" ++ base spec ++ "):") ]
        ++ match args_of rule with
           | [] => [indent_line (i + 4) "pass"]
           | _ :: _ =>
               map (fun arg => indent_line (i + 4) (arg ++ ": Any = None"))
                 (args_of rule)
           end)) /\
  NoDup (args_of rule) /\
  Sorted (fun a b => String.leb a b = true) (args_of rule) /\
  (forall a, In a (args_of rule) <->
             exists d, In d (map fst (defines rule)) /\ a = safe_name d) /\
  (defines rule = [] ->
   args_of rule = [] /\
   _gen_rule_class safe_name rule (spec :: specs) self
   = (Ok tt,
      with_output self
        (output self
         ++ [ ""; "";
              indent_line i "@dataclass(eq=False)";
              indent_line i
                ("class " ++ class_name spec ++ "(" ++ base spec ++ "):");
              indent_line (i + 4) "pass" ]))) /\
  ((forall d, In d (map fst (defines rule)) <-> d = "z" \/ d = "a" \/ d = "m") ->
   safe_name "z" = "z" -> safe_name "a" = "a" -> safe_name "m" = "m" ->
   args_of rule = ["a"; "m"; "z"]).
Proof.
  cbv zeta.
  assert (Hrun :
    _gen_rule_class safe_name rule (spec :: specs) self
    = (Ok tt,
       with_output self
         (output self
          ++ [ ""; "";
               indent_line (indentation self) "@dataclass(eq=False)";
               indent_line (indentation self)
                 ("class " ++ class_name spec ++ "(" ++ base spec ++ "):") ]
          ++ match args_of rule with
             | [] => [indent_line (indentation self + 4) "pass"]
             | _ :: _ =>
                 map (fun arg =>
                        indent_line (indentation self + 4)
                          (arg ++ ": Any = None"))
                   (args_of rule)
             end))).
  { rewrite (PrintFacts.emits_gen_rule_class safe_name rule (spec :: specs) self).
    unfold rule_class_lines, class_line. do 2 f_equal.
    change (indent_line (indentation self) "") with "".
    destruct (args_of rule); reflexivity. }
  split; [exact Hrun|]. split; [|split; [|split; [|split]]].
  - apply arguments_NoDup.
  - apply arguments_Sorted.
  - apply arguments_In.
  - intros H.
    assert (Hnil : args_of rule = []) by (unfold arguments; now rewrite H).
    split; [exact Hnil|]. rewrite Hrun, Hnil. reflexivity.
  - intros Hd Hz Ha Hm. apply sorted_amz.
    + apply arguments_NoDup.
    + apply arguments_Sorted.
    + intros x. rewrite arguments_In. split.
      * intros [d [Hin ->]]. apply Hd in Hin.
        destruct Hin as [-> | [-> | ->]]; rewrite ?Hz, ?Ha, ?Hm; tauto.
      * intros [-> | [-> | ->]];
          [exists "a" | exists "m" | exists "z"];
          (split; [apply Hd; tauto | congruence]).
Qed.

End RuleClass.

(** ** The scenario of one annotated rule *)

Section FooBase.

Variable safe_name : string -> string.
Variable is_builtin : string -> bool.

Local Abbreviation specs_of := (_base_class_specs safe_name).

Lemma sorted_xy (l : list string) :
  NoDup l ->
  Sorted (fun a b => String.leb a b = true) l ->
  (forall v, In v l <-> v = "x" \/ v = "y") ->
  l = ["x"; "y"].
Proof.
  intros Hnd Hs Hin.
  assert (Hle : List.length l <= 2).
  { apply (NoDup_incl_length (l' := ["x"; "y"]) Hnd).
    intros v Hv. apply Hin in Hv. simpl. intuition. }
  assert (Hge : 2 <= List.length l).
  { apply (@NoDup_incl_length _ ["x"; "y"] l).
    - repeat constructor; simpl; intuition discriminate.
    - intros v Hv. apply Hin. simpl in Hv. intuition. }
  destruct l as [|x1 [|x2 [|x3 l]]]; simpl in Hle, Hge; try lia.
  assert (H1 := proj1 (Hin x1) (or_introl eq_refl)).
  assert (H2 := proj1 (Hin x2) (or_intror (or_introl eq_refl))).
  inversion Hnd as [|? ? Hn1 _]; subst.
  inversion Hs as [|? ? _ Hh1]; subst.
  inversion Hh1 as [|? ? Hl12]; subst. simpl in Hn1.
  destruct H1 as [-> | ->]; destruct H2 as [-> | ->];
    try reflexivity; try tauto;
    try (vm_compute in Hl12; discriminate Hl12).
Qed.

(** C3, amended. For the grammar with the single rule [foo] annotated
    [Foo::Base] that defines the attributes x and y, generated with a root
    type named [Node], the output is the preamble followed by three
    declarations in this order: [ModelBase] derived from [Node] with the
    body [pass], [Base] derived from [ModelBase] with the body [pass], and
    [Foo] derived from [Base] with the fields x and y, each of type [Any]
    with the default [None]. *)
Theorem foo_base_output (gname nm module : string)
    (defs : list (string * bool)) :
  safe_name "Foo" = "Foo" -> safe_name "Base" = "Base" ->
  safe_name "x" = "x" -> safe_name "y" = "y" ->
  is_builtin "Foo" = false -> is_builtin "Base" = false ->
  is_builtin "ModelBase" = false ->
  (forall d, In d (map fst defs) <-> d = "x" \/ d = "y") ->
  let g := mkGrammar gname [mkRule "foo" [PStr "Foo::Base"] defs] in
  let bt := mkPyType "Node" module in
  exists text self',
    generate_model safe_name is_builtin g (__init__ nm bt) = (Ok text, self') /\
    text = unlines (output self') /\
    output self' = preamble nm bt g ++ foo_declarations.
Proof.
  intros HFoo HBase Hx Hy HbFoo HbBase HbMB Hdefs g bt.
  set (rule := mkRule "foo" [PStr "Foo::Base"] defs).
  assert (Hspecs : specs_of rule
                   = [mkSpec "Foo" "Base"; mkSpec "Base" "ModelBase"]).
  { unfold _base_class_specs. cbn [params rule].
    change (Py.split_dcolon "Foo::Base") with ["Foo"; "Base"].
    cbn [map]. rewrite HFoo, HBase. reflexivity. }
  assert (Hrs : rule_specs safe_name g
                = [("foo", [mkSpec "Foo" "Base"; mkSpec "Base" "ModelBase"])]).
  { unfold rule_specs. cbn [rules g map name]. fold rule.
    rewrite Hspecs. reflexivity. }
  assert (Hm2r : model_to_rule safe_name g = [("Foo", rule)]).
  { unfold model_to_rule. rewrite Hrs. reflexivity. }
  assert (Hsbn : specs_by_name safe_name g "Node"
                 = [("Foo", "Base"); ("Base", "ModelBase");
                    ("ModelBase", "Node")]).
  { unfold specs_by_name. rewrite Hrs. reflexivity. }
  assert (Hnames : model_names safe_name g "Node"
                   = Some ["ModelBase"; "Base"; "Foo"]).
  { unfold model_names, all_specs. rewrite Hsbn, Hrs. reflexivity. }
  assert (Hargs : arguments safe_name rule = ["x"; "y"]).
  { apply sorted_xy.
    - apply arguments_NoDup.
    - apply arguments_Sorted.
    - intros v. rewrite arguments_In. cbn [defines rule]. split.
      + intros [d [Hin ->]]. apply Hdefs in Hin.
        destruct Hin as [-> | ->]; rewrite ?Hx, ?Hy; tauto.
      + intros [-> | ->]; [exists "x" | exists "y"];
          (split; [apply Hdefs; tauto | congruence]). }
  rewrite generate_model_fresh.
  change (base_type_name bt) with "Node". rewrite Hnames. cbv zeta.
  do 2 eexists. split; [reflexivity|]. cbn [output].
  split; [reflexivity|]. f_equal.
  cbn [flat_map]. unfold emit_lines. rewrite HbMB, HbBase, HbFoo, Hm2r, Hsbn.
  cbn [Py.dict_get String.eqb Ascii.eqb Bool.eqb].
  rewrite Hspecs. unfold rule_class_lines. rewrite Hargs. reflexivity.
Qed.

End FooBase.

(** ** The entry point *)

Section EntryPoint.

Variable safe_name : string -> string.
Variable is_builtin : string -> bool.

(** What [modelgen] returns: the text of a buffer that starts empty, that
    is the preamble followed by the lines of the loop, when the class names
    can be sorted, and the error of the sort otherwise. *)
Lemma modelgen_run (model : Grammar) (nm : string) (bt : option PyType) :
  let root := match bt with Some t => t | None => Node end in
  modelgen safe_name is_builtin model nm bt
  = match model_names safe_name model (base_type_name root) with
    | Some names =>
        Ok (unlines
              (preamble nm root model
               ++ flat_map
                    (emit_lines safe_name is_builtin model
                       (base_type_name root) 0) names))
    | None => Raise (ValueError "There are cycles")
    end.
Proof.
  cbv zeta. unfold modelgen. rewrite generate_model_fresh.
  now destruct (model_names safe_name model _).
Qed.

End EntryPoint.

(** A generator that is used again keeps its buffer: the second text is
    not the first one.  [modelgen] never does this. *)
Example generate_model_reuse_differs :
  fst (generate_model keyword_safe_name python_builtin grammar_foo
         (demo_state grammar_foo))
  <> fst (demo_run grammar_foo).
Proof.
  intros H. apply (f_equal (fun r => match r with
                                     | Ok t => String.length t
                                     | Raise _ => 0
                                     end)) in H.
  vm_compute in H. discriminate H.
Qed.

(** ** Runs on concrete grammars *)

Lemma demo_run_foo :
  demo_run grammar_foo = (Ok (demo_text grammar_foo), demo_state grammar_foo).
Proof. vm_compute. reflexivity. Qed.

Lemma demo_run_list :
  demo_run grammar_list = (Ok (demo_text grammar_list), demo_state grammar_list).
Proof. vm_compute. reflexivity. Qed.

Lemma base_declared_before_class_witness :
  base_declared_before (output (demo_state grammar_foo)) "Foo" "Base".
Proof.
  refine (proj1 (proj2
    (@base_declared_before_class keyword_safe_name python_builtin
       grammar_foo "" Node (demo_text grammar_foo) (demo_state grammar_foo)
       "Foo" "Base" _ _ _ _))).
  - vm_compute. reflexivity.
  - vm_compute. left. reflexivity.
  - reflexivity.
  - reflexivity.
Defined.

(** C2 as stated fails: for the rule annotated [A::list] the edge
    [(A, list)] is aggregated, the generator returns, and no declaration of
    [list] precedes the declaration of [A]. *)
Lemma base_not_declared_before_class :
  demo_run grammar_list
  = (Ok (demo_text grammar_list), demo_state grammar_list) /\
  In ("A", "list") (all_specs keyword_safe_name grammar_list) /\
  ~ base_declared_before (output (demo_state grammar_list)) "A" "list".
Proof.
  split; [exact demo_run_list|]. split; [vm_compute; left; reflexivity|].
  intros (l1 & lb & l2 & lc & l3 & Hout & Hb & _).
  assert (Hin : In lb (output (demo_state grammar_list)))
    by (rewrite Hout; apply in_elt).
  assert (Hnone : forallb (fun line => negb (declares "list" line))
                    (output (demo_state grammar_list)) = true)
    by (vm_compute; reflexivity).
  rewrite forallb_forall in Hnone. specialize (Hnone lb Hin).
  rewrite Hb in Hnone. discriminate Hnone.
Qed.

Lemma foo_base_output_witness :
  exists text self',
    generate_model keyword_safe_name python_builtin
      (mkGrammar "Demo"
         [mkRule "foo" [PStr "Foo::Base"]
            [("y", false); ("x", true); ("y", false)]])
      (__init__ "" (mkPyType "Node" "tatsu.objectmodel"))
    = (Ok text, self') /\
    text = unlines (output self') /\
    output self'
    = preamble "" (mkPyType "Node" "tatsu.objectmodel")
        (mkGrammar "Demo"
           [mkRule "foo" [PStr "Foo::Base"]
              [("y", false); ("x", true); ("y", false)]])
      ++ foo_declarations.
Proof.
  apply (@foo_base_output keyword_safe_name python_builtin "Demo" ""
           "tatsu.objectmodel" [("y", false); ("x", true); ("y", false)]);
    try reflexivity.
  intros d. simpl. intuition congruence.
Defined.

(** C3 as stated fails: in the output for the rule [foo] annotated
    [Foo::Base] with the attributes x and y and the root type [Node] there
    is no class [Base] derived from [Node]. *)
Lemma base_of_node_absent :
  demo_run grammar_foo
  = (Ok (demo_text grammar_foo), demo_state grammar_foo) /\
  ~ base_of_node_then_foo (output (demo_state grammar_foo)).
Proof.
  split; [exact demo_run_foo|].
  intros (l1 & l2 & l3 & Hout).
  assert (Hin : In "class Base(Node):" (output (demo_state grammar_foo))).
  { rewrite Hout. apply in_or_app. right. now left. }
  assert (Hnone : forallb (fun line => negb (String.eqb line "class Base(Node):"))
                    (output (demo_state grammar_foo)) = true)
    by (vm_compute; reflexivity).
  rewrite forallb_forall in Hnone. specialize (Hnone _ Hin).
  rewrite String.eqb_refl in Hnone. discriminate Hnone.
Qed.

Lemma gen_rule_class_fields_witness :
  arguments keyword_safe_name
    (mkRule "expr" [PStr "Expr"]
       [("z", false); ("a", true); ("m", false); ("z", false); ("a", false)])
  = ["a"; "m"; "z"].
Proof.
  refine (proj2 (proj2 (proj2 (proj2 (proj2
    (@gen_rule_class_fields keyword_safe_name
       (mkRule "expr" [PStr "Expr"]
          [("z", false); ("a", true); ("m", false); ("z", false); ("a", false)])
       (mkSpec "Expr" "ModelBase") [] (__init__ "" Node)))))) _ _ _ _);
    try reflexivity.
  intros d. simpl. intuition congruence.
Defined.

Lemma unannotated_rule_ignored_witness :
  _base_class_specs keyword_safe_name (mkRule "number" [PInt 3; PStr "X"] [("v", false)])
  = [] /\
  generate_model keyword_safe_name python_builtin
    (mkGrammar "Demo"
       [mkRule "foo" [PStr "Foo::Base"] [("x", false)];
        mkRule "number" [PInt 3; PStr "X"] [("v", false)];
        mkRule "bar" [PStr "Bar"] []])
    (__init__ "" Node)
  = generate_model keyword_safe_name python_builtin
      (mkGrammar "Demo"
         [mkRule "foo" [PStr "Foo::Base"] [("x", false)];
          mkRule "bar" [PStr "Bar"] []])
      (__init__ "" Node).
Proof.
  destruct (@unannotated_rule_ignored keyword_safe_name python_builtin
              (mkRule "number" [PInt 3; PStr "X"] [("v", false)]) eq_refl)
    as (H1 & _ & _ & H4).
  split; [exact H1|].
  apply (H4 "Demo" [mkRule "foo" [PStr "Foo::Base"] [("x", false)]]
           [mkRule "bar" [PStr "Bar"] []]).
  repeat constructor; simpl; intuition discriminate.
Defined.

Lemma builtin_name_not_declared_witness :
  exists text self' body,
    generate_model keyword_safe_name python_builtin grammar_list
      (__init__ "" Node) = (Ok text, self') /\
    text = unlines (output self') /\
    output self' = preamble "" Node grammar_list ++ body /\
    (forall line, In line body -> declares "list" line = false) /\
    emit_lines keyword_safe_name python_builtin grammar_list
      (base_type_name Node) 0 "list" = [].
Proof.
  apply (@builtin_name_not_declared keyword_safe_name python_builtin
           grammar_list "" Node ["ModelBase"; "list"; "A"] "list").
  - reflexivity.
  - simpl. tauto.
  - reflexivity.
  - reflexivity.
Defined.


Lemma last_rule_with_leaf_wins_witness :
  exists text self' before after,
    generate_model keyword_safe_name python_builtin grammar_leaves
      (__init__ "" Node) = (Ok text, self') /\
    text = unlines (output self') /\
    output self'
    = preamble "" Node grammar_leaves ++ before
      ++ [""; ""; "@dataclass(eq=False)"; "class Shared(Root):";
          "    b: Any = None"]
      ++ after /\
    declarations "Shared" before = [] /\ declarations "Shared" after = [].
Proof.
  destruct (@last_rule_with_leaf_wins keyword_safe_name python_builtin
              grammar_leaves "" Node ["ModelBase"; "Root"; "Shared"]
              [mkRule "first" [PStr "Shared::Root"] [("a", false)]] []
              (mkRule "second" [PStr "Shared::Root"] [("b", false)]) "Shared"
              eq_refl
              ltac:(repeat constructor; simpl; intuition discriminate)
              eq_refl
              ltac:(intros r' [])
              eq_refl eq_refl)
    as (_ & _ & b & text & self' & before & after & Hhd & Hrun & Htext
        & Hout & Hdecl).
  injection Hhd as <-.
  exists text, self', before, after.
  split; [exact Hrun|]. split; [exact Htext|]. split; [exact Hout|].
  apply Hdecl. reflexivity.
Defined.

(** ** Chains of arbitrary annotations *)

Section Chains.

Variable safe_name : string -> string.

Local Abbreviation specs_of := (_base_class_specs safe_name).

Lemma map_snd_combine_seq {A} (l : list A) (k : nat) :
  map snd (combine (seq k (List.length l)) l) = l.
Proof.
  revert k. induction l as [|x l IH]; intros k; simpl; [reflexivity|].
  now rewrite IH.
Qed.

Lemma base_class_specs_classes (rule : Rule) (annotation : string)
    (rest : list Param) :
  params rule = PStr annotation :: rest ->
  map class_name (specs_of rule)
  = map safe_name (Py.split_dcolon annotation).
Proof.
  intros Hp. rewrite (base_class_specs_unfold safe_name _ Hp). cbv zeta.
  rewrite map_map. cbn [class_name]. unfold Py.enumerate.
  rewrite <- (map_map snd (fun x => x)), map_snd_combine_seq.
  apply map_id.
Qed.

Lemma annotated_params (rule : Rule) :
  annotated rule = true ->
  exists annotation rest, params rule = PStr annotation :: rest.
Proof.
  unfold annotated. destruct (params rule) as [|[s| |] rest]; intros H;
    try discriminate H.
  now exists s, rest.
Qed.

Lemma annotated_specs_nonempty (rule : Rule) :
  annotated rule = true -> specs_of rule <> [].
Proof.
  intros H. destruct (annotated_params _ H) as [ann [rest Hp]].
  intros Hnil. apply (f_equal (@List.length _)) in Hnil.
  rewrite (base_class_specs_length safe_name _ Hp) in Hnil.
  unfold Py.split_dcolon in Hnil.
  pose proof (@PyFacts.split_dcolon_from_nonempty ann EmptyString) as Hne.
  destruct (Py.split_dcolon_from EmptyString ann); [congruence | discriminate Hnil].
Qed.

(** X1. Whatever text the first parameter is (empty pieces, single colons
    and a trailing separator included), the chain of the rule is not
    empty, has one spec per piece of the annotation, its classes are the
    sanitized pieces in order, the base of every spec is the class of the
    spec that follows it, and the base of the last spec is [ModelBase]. *)
Theorem base_class_specs_linked (rule : Rule) (annotation : string)
    (rest : list Param) :
  params rule = PStr annotation :: rest ->
  specs_of rule <> [] /\
  List.length (specs_of rule) = List.length (Py.split_dcolon annotation) /\
  map class_name (specs_of rule)
  = map safe_name (Py.split_dcolon annotation) /\
  (forall i s s',
     nth_error (specs_of rule) i = Some s ->
     nth_error (specs_of rule) (S i) = Some s' ->
     base s = class_name s') /\
  (forall s,
     nth_error (specs_of rule) (List.length (specs_of rule) - 1) = Some s ->
     base s = "ModelBase").
Proof.
  intros Hp.
  pose proof (base_class_specs_length safe_name _ Hp) as Hlen.
  set (names := map safe_name (Py.split_dcolon annotation)).
  assert (Hnames : List.length names = List.length (specs_of rule))
    by (unfold names; now rewrite length_map, Hlen).
  split; [|split; [exact Hlen|split; [|split]]].
  - apply annotated_specs_nonempty. unfold annotated. now rewrite Hp.
  - now apply base_class_specs_classes with (rest := rest).
  - intros i s s' Hs Hs'.
    assert (Hi : S i < List.length names).
    { rewrite Hnames. apply nth_error_Some. congruence. }
    rewrite (@base_class_specs_nth safe_name _ _ _ i Hp) in Hs
      by (fold names; lia).
    rewrite (@base_class_specs_nth safe_name _ _ _ (S i) Hp) in Hs'
      by (fold names; lia).
    fold names in Hs, Hs'. inversion Hs; inversion Hs'. cbn [base class_name].
    rewrite app_nth1 by lia. now replace (i + 1) with (S i) by lia.
  - intros s Hs.
    assert (Hpos : 0 < List.length names).
    { rewrite Hnames. destruct (specs_of rule); [|simpl; lia].
      destruct (List.length [] - 1); discriminate Hs. }
    rewrite (@base_class_specs_nth safe_name _ _ _
               (List.length (specs_of rule) - 1) Hp) in Hs
      by (fold names; lia).
    fold names in Hs. inversion Hs. cbn [base].
    rewrite app_nth2 by lia.
    replace (List.length (specs_of rule) - 1 + 1 - List.length names)
      with 0 by lia.
    reflexivity.
Qed.

(** X2. The dictionary [rule_specs] holds exactly the annotated rules of
    the index, each under its name with its chain, and no chain in it is
    empty: the filter drops a rule if and only if it is not annotated, so
    [rule_specs[name][0]] exists for every name it keeps. *)
Theorem rule_specs_exact (g : Grammar) (k : string)
    (specs : list BaseClassSpec) :
  Py.dict_get (rule_specs safe_name g) k = Some specs <->
  exists r,
    Py.dict_get (rule_index g) k = Some r /\ annotated r = true /\
    specs = specs_of r /\ specs <> [].
Proof.
  rewrite rule_specs_get. split.
  - destruct (Py.dict_get (rule_index g) k) as [r|]; [|discriminate].
    destruct (annotated r) eqn:Ha.
    + pose proof (annotated_specs_nonempty _ Ha) as Hne.
      destruct (specs_of r) as [|s l] eqn:E; [congruence|].
      intros H. inversion H; subst. exists r. rewrite E. now repeat split.
    + unfold _base_class_specs, annotated in *.
      destruct (params r) as [|[s| |] rest]; discriminate.
  - intros (r & Hidx & Ha & -> & Hne). rewrite Hidx.
    now destruct (specs_of r).
Qed.

End Chains.

Lemma base_class_specs_linked_witness :
  map class_name
    (_base_class_specs keyword_safe_name
       (mkRule "expr" [PStr "class:::B::"; PInt 1] []))
  = ["class_"; ":B"; ""] /\
  List.length
    (_base_class_specs keyword_safe_name
       (mkRule "expr" [PStr "class:::B::"; PInt 1] [])) = 3.
Proof.
  destruct (@base_class_specs_linked keyword_safe_name
              (mkRule "expr" [PStr "class:::B::"; PInt 1] [])
              "class:::B::" [PInt 1] eq_refl)
    as (_ & Hlen & Hcls & _).
  split; [exact Hcls | exact Hlen].
Defined.

(** ** Runs of the generator: errors, state and reuse *)

Section Runs.

Variable safe_name : string -> string.
Variable is_builtin : string -> bool.

Local Abbreviation specs_of := (_base_class_specs safe_name).
Local Abbreviation generate := (generate_model safe_name is_builtin).

(** X3. [generate_model] never raises a [KeyError]: the lookup
    [rule_specs[rule.name]] in the loop finds its key for every rule that
    [model_to_rule] holds.  The call raises only the error of the sort,
    and it returns a text whenever the sort returns the names. *)
Theorem generate_model_raises_only_on_cycle (g : Grammar)
    (self : PythonModelGenerator) :
  (forall k, fst (generate g self) <> Raise (KeyError k)) /\
  (forall names,
     model_names safe_name g (base_type_name (base_type self)) = Some names ->
     exists text, fst (generate g self) = Ok text) /\
  (model_names safe_name g (base_type_name (base_type self)) = None ->
   exists msg, fst (generate g self) = Raise (ValueError msg)).
Proof.
  rewrite generate_model_run. cbv zeta.
  destruct (model_names safe_name g (base_type_name (base_type self)))
    as [names|]; cbn [fst]; repeat split.
  - intros k H. discriminate H.
  - intros names' _. now eexists.
  - intros H. discriminate H.
  - intros k H. discriminate H.
  - intros names' H. discriminate H.
  - intros _. now eexists.
Qed.

Lemma generate_model_state_aux (g : Grammar)
    (self self' : PythonModelGenerator) (r : Result string) :
  generate g self = (r, self') ->
  base_type self' = base_type self /\
  indentation self' = indentation self /\
  self_name self' = Some (name_or (self_name self) g).
Proof.
  rewrite generate_model_run. cbv zeta.
  destruct (model_names safe_name g (base_type_name (base_type self)));
    intros H; inversion H; now repeat split.
Qed.

(** X4. Whether it returns or raises, a run of [generate_model] keeps the
    root type and the indentation of the generator, sets its name to the
    name it had or, failing that, to the name of the grammar, and only
    appends to the buffer; the text it returns is the whole buffer, the
    lines printed before the call included. *)
Theorem generate_model_state (g : Grammar) (self self' : PythonModelGenerator)
    (r : Result string) :
  generate g self = (r, self') ->
  base_type self' = base_type self /\
  indentation self' = indentation self /\
  self_name self' = Some (name_or (self_name self) g) /\
  exists printed,
    output self' = output self ++ printed /\
    (forall text, r = Ok text -> text = unlines (output self ++ printed)).
Proof.
  rewrite generate_model_run. cbv zeta.
  destruct (model_names safe_name g (base_type_name (base_type self)))
    as [names|]; intros H; inversion H; subst r self';
    cbn [base_type indentation self_name output];
    (split; [reflexivity|]); (split; [reflexivity|]);
    (split; [reflexivity|]); eexists; (split; [reflexivity|]).
  - intros text Ht. now inversion Ht.
  - intros text Ht. discriminate Ht.
Qed.

(** X5. A generator that has run once keeps the name of its first run:
    when that name is not empty, a later run on any other grammar prints
    the preamble with the first name, not with the name of the grammar it
    is given, after the lines of the first run. *)
Theorem reused_generator_keeps_name (g1 g2 : Grammar)
    (self self1 self2 : PythonModelGenerator) (r1 r2 : Result string) :
  generate g1 self = (r1, self1) ->
  generate g2 self1 = (r2, self2) ->
  Py.truthy (name_or (self_name self) g1) = true ->
  self_name self2 = Some (name_or (self_name self) g1) /\
  exists rest,
    output self2
    = output self1
      ++ map (indent_line (indentation self))
           (trim (HEADER (name_or (self_name self) g1)
                    (base_type_import (base_type self))))
      ++ rest.
Proof.
  intros H1 H2 Ht.
  destruct (generate_model_state_aux _ _ H1) as (Hb & Hi & Hn).
  assert (Hname : name_or (self_name self1) g2 = name_or (self_name self) g1).
  { rewrite Hn. unfold name_or at 1. now rewrite Ht. }
  rewrite generate_model_run in H2. cbv zeta in H2.
  rewrite Hname, Hb, Hi in H2.
  destruct (model_names safe_name g2 (base_type_name (base_type self)))
    as [names|]; inversion H2; cbn [self_name output];
    (split; [reflexivity|]); eexists.
  - reflexivity.
  - now rewrite app_nil_r.
Qed.

End Runs.

Lemma generate_model_state_witness :
  base_type (demo_state grammar_foo) = base_type (__init__ "" Node) /\
  indentation (demo_state grammar_foo) = indentation (__init__ "" Node) /\
  self_name (demo_state grammar_foo)
  = Some (name_or (self_name (__init__ "" Node)) grammar_foo).
Proof.
  destruct (@generate_model_state keyword_safe_name python_builtin grammar_foo
              (__init__ "" Node) (demo_state grammar_foo)
              (fst (demo_run grammar_foo)) (surjective_pairing _))
    as (H1 & H2 & H3 & _).
  exact (conj H1 (conj H2 H3)).
Defined.

Lemma reused_generator_keeps_name_witness :
  self_name
    (snd (generate_model keyword_safe_name python_builtin grammar_other
            (demo_state grammar_foo)))
  = Some "Demo".
Proof.
  exact (proj1
    (@reused_generator_keeps_name keyword_safe_name python_builtin
       grammar_foo grammar_other (__init__ "" Node) (demo_state grammar_foo)
       (snd (generate_model keyword_safe_name python_builtin grammar_other
               (demo_state grammar_foo)))
       (fst (demo_run grammar_foo))
       (fst (generate_model keyword_safe_name python_builtin grammar_other
               (demo_state grammar_foo)))
       (surjective_pairing _) (surjective_pairing _) eq_refl)).
Defined.

(** ** Grammars without a hierarchy *)

Section NoHierarchy.

Variable safe_name : string -> string.
Variable is_builtin : string -> bool.

Local Abbreviation specs_of := (_base_class_specs safe_name).

Lemma rule_specs_empty (g : Grammar) :
  (forall r, In r (rules g) -> annotated r = false) ->
  rule_specs safe_name g = [].
Proof.
  intros Hall. destruct (rule_specs safe_name g) as [|[k specs] l] eqn:E;
    [reflexivity|].
  assert (Hin : In (k, specs) (rule_specs safe_name g))
    by (rewrite E; now left).
  apply rule_specs_In, rule_specs_nonempty in Hin.
  destruct Hin as [Hne [r [Hidx ->]]].
  apply rule_index_sound in Hidx. destruct Hidx as [Hr _].
  exfalso. apply Hne. apply unannotated_specs. now apply Hall.
Qed.

Lemma flat_map_nil {A B} (f : A -> list B) (l : list A) :
  (forall x, In x l -> f x = []) -> flat_map f l = [].
Proof.
  induction l as [|x l IH]; intros H; [reflexivity|].
  cbn [flat_map]. rewrite (H x (or_introl eq_refl)), IH; [reflexivity|].
  intros y Hy. apply H. now right.
Qed.

(** X6. For a grammar in which no rule is annotated (the grammar without
    rules included) [generate_model] returns, and after the preamble it
    declares the single class [ModelBase], derived from the simple name
    of the root type (or without a base when that name is empty), with
    the body [pass]. *)
Theorem no_annotated_rule_output (g : Grammar) (nm : string) (bt : PyType) :
  (forall r, In r (rules g) -> annotated r = false) ->
  is_builtin "ModelBase" = false ->
  exists text self',
    generate_model safe_name is_builtin g (__init__ nm bt) = (Ok text, self') /\
    text = unlines (output self') /\
    output self'
    = preamble nm bt g
      ++ [ ""; ""; "@dataclass(eq=False)";
           class_line "ModelBase"
             (if Py.truthy (base_type_name bt)
              then Some (base_type_name bt) else None);
           "    pass" ].
Proof.
  intros Hall Hb. pose proof (rule_specs_empty g Hall) as Hrs.
  assert (Hm2r : model_to_rule safe_name g = []).
  { unfold model_to_rule. rewrite Hrs.
    rewrite flat_map_nil; [reflexivity | intros x _; reflexivity]. }
  rewrite generate_model_fresh.
  unfold model_names, specs_by_name, all_specs. rewrite Hrs.
  cbn [flat_map Py.set_of Py.dict_of fold_left Py.dict_set Py.keys map fst rev
       app List.length Topsort.topsort].
  cbn [Topsort.loop Topsort.ready forallb find remove rev app].
  destruct (string_dec _model_base_name _model_base_name) as [_|N];
    [|congruence].
  cbn [Topsort.loop rev app]. cbv zeta.
  do 2 eexists. split; [reflexivity|]. cbn [output].
  split; [reflexivity|]. f_equal.
  cbn [rev app flat_map]. rewrite app_nil_r. unfold emit_lines.
  unfold _model_base_name. rewrite Hb, Hm2r. cbn [Py.dict_get].
  unfold specs_by_name. rewrite Hrs.
  cbn [flat_map Py.dict_of fold_left Py.dict_set Py.dict_get].
  unfold _model_base_name. rewrite String.eqb_refl.
  unfold base_class_lines. rewrite !PrintFacts.indent_line_0.
  reflexivity.
Qed.

End NoHierarchy.

Lemma no_annotated_rule_output_witness :
  exists text self',
    generate_model keyword_safe_name python_builtin grammar_plain
      (__init__ "" Node) = (Ok text, self') /\
    text = unlines (output self') /\
    output self'
    = preamble "" Node grammar_plain
      ++ [ ""; ""; "@dataclass(eq=False)"; "class ModelBase(Node):";
           "    pass" ].
Proof.
  apply (@no_annotated_rule_output keyword_safe_name python_builtin
           grammar_plain "" Node).
  - intros r Hr. simpl in Hr. destruct Hr as [<-|[<-|[]]]; reflexivity.
  - reflexivity.
Defined.

(** ** The shape of the declarations *)

Section Blocks.

Variable safe_name : string -> string.
Variable is_builtin : string -> bool.

Local Abbreviation specs_of := (_base_class_specs safe_name).
Local Abbreviation emit := (emit_lines safe_name is_builtin).

Lemma truthy_false (s : string) : Py.truthy s = false -> s = EmptyString.
Proof. destruct s; [reflexivity | discriminate]. Qed.

Lemma specs_by_name_sound (g : Grammar) (btn c b : string) :
  Py.dict_get (specs_by_name safe_name g btn) c = Some b ->
  (c = "ModelBase" /\ b = btn) \/
  (c <> "ModelBase" /\ In (c, b) (all_specs safe_name g)).
Proof.
  unfold specs_by_name. rewrite DictFacts.dict_get_set.
  unfold _model_base_name.
  destruct (String.eqb_spec c "ModelBase") as [->|Hc]; intros H.
  - left. now inversion H.
  - right. split; [exact Hc|]. rewrite DictFacts.dict_get_of in H.
    apply DictFacts.dict_get_In, in_rev in H. unfold all_specs.
    now apply (proj2 (SetFacts.set_of_In _ SetFacts.pair_eqb_eq _ _)).
Qed.

Lemma model_to_rule_edge (g : Grammar) (c : string) (r : Rule) :
  Py.dict_get (model_to_rule safe_name g) c = Some r ->
  exists s rest,
    specs_of r = s :: rest /\ class_name s = c /\
    In (c, base s) (all_specs safe_name g).
Proof.
  intros H. destruct (@model_to_rule_sound _ _ _ _ H) as (s & rest & Hs & Hc & Hget & _).
  exists s, rest. split; [exact Hs|]. split; [exact Hc|].
  apply all_specs_In. exists (name r), (s :: rest). split; [exact Hget|].
  left. subst c. now destruct s.
Qed.

(** X7. The turn of a name that is not built in prints a class line whose
    base is a declared one: the class line names a base [b] such that
    [(name, b)] is an aggregated edge, or it is the line of [ModelBase]
    with the simple name of the root type; a line without base is printed
    only for a name that is not the leaf of a rule and whose recorded base
    is missing or the empty text. *)
Theorem printed_base_is_declared (g : Grammar) (btn n : string)
    (self : PythonModelGenerator) :
  is_builtin n = false ->
  indentation self = 0 ->
  exists line rest,
    emit_model safe_name is_builtin g btn n self
    = (Ok tt,
       with_output self
         (output self ++ [""; ""; "@dataclass(eq=False)"; line] ++ rest)) /\
    ((exists b,
        line = class_line n (Some b) /\
        (In (n, b) (all_specs safe_name g) \/ (n = "ModelBase" /\ b = btn))) \/
     (line = class_line n None /\
      Py.dict_get (model_to_rule safe_name g) n = None /\
      (Py.dict_get (specs_by_name safe_name g btn) n = None \/
       Py.dict_get (specs_by_name safe_name g btn) n = Some EmptyString))).
Proof.
  intros Hb Hi. rewrite (emits_emit_model safe_name is_builtin g btn n self).
  rewrite Hi.
  destruct (@emit_lines_shape safe_name is_builtin g btn n Hb) as [rest [-> _]].
  exists (decl_line safe_name g btn n), rest. split; [reflexivity|].
  unfold decl_line.
  destruct (Py.dict_get (model_to_rule safe_name g) n) as [r|] eqn:Hr.
  - destruct (@model_to_rule_edge _ _ _ Hr) as (s & rest' & Hs & Hc & Hin).
    rewrite Hs, Hc. left. exists (base s). split; [reflexivity | now left].
  - destruct (Py.dict_get (specs_by_name safe_name g btn) n) as [b|] eqn:Hsb.
    + destruct (Py.truthy b) eqn:Ht.
      * left. exists b. split; [reflexivity|].
        destruct (@specs_by_name_sound _ _ _ _ Hsb) as [[-> ->]|[_ Hin]];
          [now right | now left].
      * right. apply truthy_false in Ht. subst b. now repeat split; try right.
    + right. now repeat split; try left.
Qed.

(** X10. A class is generated from a rule exactly when it is the leaf
    class of a rule of the index: [model_to_rule] has an entry for the
    name if and only if some indexed rule has it as the class of its first
    spec.  Every other name that is not built in, the intermediate classes
    of a chain included, goes to [_gen_base_class], whatever attributes
    the rules define. *)
Theorem rule_class_iff_leaf (g : Grammar) (btn n : string) :
  ((exists r, Py.dict_get (model_to_rule safe_name g) n = Some r) <->
   (exists r, Py.dict_get (rule_index g) (name r) = Some r /\
              leaf safe_name r = Some n)) /\
  ((forall r, Py.dict_get (rule_index g) (name r) = Some r ->
              leaf safe_name r <> Some n) ->
   is_builtin n = false ->
   emit_model safe_name is_builtin g btn n
   = _gen_base_class n (Py.dict_get (specs_by_name safe_name g btn) n)).
Proof.
  assert (Hiff : (exists r, Py.dict_get (model_to_rule safe_name g) n = Some r) <->
                 (exists r, Py.dict_get (rule_index g) (name r) = Some r /\
                            leaf safe_name r = Some n)).
  { split.
    - intros [r Hr]. exists r.
      destruct (@model_to_rule_sound _ _ _ _ Hr) as (s & rest & Hs & Hc & _ & Hidx).
      split; [exact Hidx|]. unfold leaf. rewrite Hs. cbn. now rewrite Hc.
    - intros [r [Hidx Hleaf]]. unfold leaf in Hleaf.
      destruct (specs_of r) as [|s rest] eqn:Hs; [discriminate Hleaf|].
      cbn in Hleaf. injection Hleaf as Hc.
      destruct (Py.dict_get (model_to_rule safe_name g) n) as [r'|] eqn:E;
        [now exists r'|].
      exfalso. apply DictFacts.dict_get_None in E. apply E.
      unfold model_to_rule. apply DictFacts.keys_of.
      apply in_map_iff. exists (n, r). split; [reflexivity|].
      apply model_to_rule_item. split; [exact Hidx|]. now exists s, rest. }
  split; [exact Hiff|].
  intros Hno Hb. unfold emit_model. rewrite Hb.
  destruct (Py.dict_get (model_to_rule safe_name g) n) as [r|] eqn:E;
    [|reflexivity].
  exfalso. destruct (proj1 Hiff (ex_intro _ r eq_refl)) as [r' [Hidx Hleaf]].
  now apply (Hno r').
Qed.

Lemma prefix_class_indented (l : string) :
  String.prefix "    " l = true -> String.prefix "class " l = false.
Proof.
  destruct l as [|c l]; [reflexivity|]. rewrite !LineFacts.prefix_cons.
  destruct (ascii_dec " " c) as [<-|_]; [reflexivity | discriminate].
Qed.

Lemma prefix_class_line (n : string) (b : option string) :
  String.prefix "class " (class_line n b) = true.
Proof. destruct b; apply LineFacts.prefix_refl_app. Qed.

Lemma emit_lines_block (g : Grammar) (btn n : string) :
  emit g btn 0 n = [] \/
  exists line body,
    emit g btn 0 n = "" :: "" :: "@dataclass(eq=False)" :: line :: body /\
    String.prefix "class " line = true /\ body <> [] /\
    Forall (fun l => String.prefix "    " l = true) body.
Proof.
  unfold emit_lines. destruct (is_builtin n); [now left|]. right.
  destruct (Py.dict_get (model_to_rule safe_name g) n) as [r|] eqn:Hr.
  - destruct (@model_to_rule_sound _ _ _ _ Hr) as (s & rest & Hs & _).
    rewrite Hs. unfold rule_class_lines. rewrite !PrintFacts.indent_line_0.
    cbn [app]. do 2 eexists. split; [reflexivity|].
    split; [apply prefix_class_line|]. change (0 + 4) with 4.
    destruct (arguments safe_name r) as [|a l].
    + split; [discriminate|]. repeat constructor.
    + split; [discriminate|]. cbn [app].
      apply Forall_forall. intros x Hx. apply in_map_iff in Hx.
      destruct Hx as [arg [<- _]]. rewrite LineFacts.field_line_indent.
      apply LineFacts.prefix_refl_app.
  - unfold base_class_lines. rewrite !PrintFacts.indent_line_0.
    do 2 eexists. split; [reflexivity|]. split; [apply prefix_class_line|].
    split; [discriminate|]. repeat constructor.
Qed.

Lemma flat_map_class_blocks (g : Grammar) (btn : string) (names : list string) :
  class_blocks (flat_map (emit g btn 0) names).
Proof.
  induction names as [|n names IH]; [constructor|].
  cbn [flat_map].
  destruct (emit_lines_block g btn n) as [->|(line & body & -> & H1 & H2 & H3)].
  - exact IH.
  - cbn [app]. now constructor.
Qed.

Lemma app_split_elt {A} (a b l1 l2 : list A) (x : A) :
  l1 ++ x :: l2 = a ++ b ->
  In x a \/ exists l1', l1 = a ++ l1' /\ b = l1' ++ x :: l2.
Proof.
  revert l1. induction a as [|y a IH]; intros l1 H.
  - right. now exists l1.
  - destruct l1 as [|z l1]; cbn [app] in H; inversion H; subst.
    + left. now left.
    + destruct (IH l1 H2) as [Hin|[l1' [-> ->]]].
      * left. now right.
      * right. now exists l1'.
Qed.

Lemma class_blocks_decorated (l : list string) :
  class_blocks l ->
  forall l1 line l2,
    l = l1 ++ line :: l2 ->
    String.prefix "class " line = true ->
    exists l0 next l3,
      l1 = l0 ++ [""; ""; "@dataclass(eq=False)"] /\
      l2 = next :: l3 /\ String.prefix "    " next = true.
Proof.
  induction 1 as [|cl body rest Hcl Hne Hbody Hrest IH];
    intros l1 line l2 Heq Hline.
  - destruct l1; discriminate Heq.
  - destruct l1 as [|a [|b [|c [|d l1]]]]; cbn [app] in Heq;
      inversion Heq; subst; try discriminate Hline.
    + exists []. destruct body as [|next body]; [congruence|].
      exists next, (body ++ rest). split; [reflexivity|].
      split; [reflexivity|]. now inversion Hbody.
    + match goal with
      | E : body ++ rest = l1 ++ line :: l2 |- _ =>
          symmetry in E; apply app_split_elt in E;
          destruct E as [Hin|[l1' [-> Hr]]]
      end.
      * rewrite Forall_forall in Hbody.
        apply Hbody, prefix_class_indented in Hin. congruence.
      * destruct (IH l1' line l2 Hr Hline) as (l0 & next & l3 & -> & -> & Hn).
        eexists (_ :: _ :: _ :: _ :: body ++ l0), next, l3.
        split; [|split; [reflexivity | exact Hn]].
        cbn [app]. rewrite <- app_assoc. reflexivity.
Qed.

(** X8. After the preamble the text of a run has only class blocks: every
    line that starts with [class] comes right after two blank lines and
    the decorator [@dataclass(eq=False)], and is followed by an indented
    line, so no class is left without decorator or without body. *)
Theorem class_lines_decorated (g : Grammar) (nm : string) (bt : PyType)
    (text : string) (self' : PythonModelGenerator) :
  generate_model safe_name is_builtin g (__init__ nm bt) = (Ok text, self') ->
  exists body,
    output self' = preamble nm bt g ++ body /\
    forall l1 line l2,
      body = l1 ++ line :: l2 ->
      String.prefix "class " line = true ->
      exists l0 next l3,
        l1 = l0 ++ [""; ""; "@dataclass(eq=False)"] /\
        l2 = next :: l3 /\ String.prefix "    " next = true.
Proof.
  rewrite generate_model_fresh.
  remember (preamble nm bt g) as pre eqn:Hpre. clear Hpre.
  destruct (model_names safe_name g (base_type_name bt)) as [names|];
    intros H; [|discriminate H].
  cbv zeta in H. inversion H; subst text self'. cbn [output].
  eexists. split; [reflexivity|].
  apply class_blocks_decorated, flat_map_class_blocks.
Qed.

End Blocks.

Lemma printed_base_is_declared_witness :
  exists line rest,
    emit_model keyword_safe_name python_builtin grammar_foo "Node" "Base"
      (__init__ "" Node)
    = (Ok tt,
       with_output (__init__ "" Node)
         (output (__init__ "" Node)
          ++ [""; ""; "@dataclass(eq=False)"; line] ++ rest)).
Proof.
  destruct (@printed_base_is_declared keyword_safe_name python_builtin
              grammar_foo "Node" "Base" (__init__ "" Node) eq_refl eq_refl)
    as (line & rest & Hrun & _).
  now exists line, rest.
Defined.

Lemma class_lines_decorated_witness :
  exists body,
    output (demo_state grammar_foo) = preamble "" Node grammar_foo ++ body.
Proof.
  assert (Hrun : generate_model keyword_safe_name python_builtin grammar_foo
                   (__init__ "" Node)
                 = (Ok (demo_text grammar_foo), demo_state grammar_foo))
    by (vm_compute; reflexivity).
  destruct (@class_lines_decorated keyword_safe_name python_builtin
              grammar_foo "" Node (demo_text grammar_foo)
              (demo_state grammar_foo) Hrun)
    as (body & Hout & _).
  exists body. exact Hout.
Defined.

(** ** The order of the fields *)

Module SortFacts.

Lemma ascii_compare_refl (a : ascii) : Ascii.compare a a = Eq.
Proof. unfold Ascii.compare. apply N.compare_refl. Qed.

Lemma ascii_compare_lt_trans (a b c : ascii) :
  Ascii.compare a b = Lt -> Ascii.compare b c = Lt -> Ascii.compare a c = Lt.
Proof.
  unfold Ascii.compare. rewrite !N.compare_lt_iff. apply N.lt_trans.
Qed.

Lemma compare_lt_trans (a b c : string) :
  String.compare a b = Lt -> String.compare b c = Lt ->
  String.compare a c = Lt.
Proof.
  revert b c. induction a as [|x a IH]; intros [|y b] [|z c]; simpl;
    try discriminate; try reflexivity.
  destruct (Ascii.compare x y) eqn:E1; destruct (Ascii.compare y z) eqn:E2;
    try discriminate.
  - apply Ascii.compare_eq_iff in E1. apply Ascii.compare_eq_iff in E2.
    subst. rewrite ascii_compare_refl. apply IH.
  - apply Ascii.compare_eq_iff in E1. subst. now rewrite E2.
  - apply Ascii.compare_eq_iff in E2. subst. now rewrite E1.
  - now rewrite (ascii_compare_lt_trans _ _ _ E1 E2).
Qed.

Lemma leb_trans (a b c : string) :
  String.leb a b = true -> String.leb b c = true -> String.leb a c = true.
Proof.
  unfold String.leb.
  destruct (String.compare a b) eqn:E1; [| |discriminate];
    destruct (String.compare b c) eqn:E2; try discriminate; intros _ _.
  - apply String.compare_eq_iff in E1. subst. now rewrite E2.
  - apply String.compare_eq_iff in E1. subst. now rewrite E2.
  - apply String.compare_eq_iff in E2. subst. now rewrite E1.
  - now rewrite (compare_lt_trans _ _ _ E1 E2).
Qed.

(** Two sorted lists without repetition that have the same elements are
    the same list. *)
Lemma sorted_unique (l1 l2 : list string) :
  NoDup l1 -> NoDup l2 ->
  Sorted (fun a b => String.leb a b = true) l1 ->
  Sorted (fun a b => String.leb a b = true) l2 ->
  (forall x, In x l1 <-> In x l2) ->
  l1 = l2.
Proof.
  intros Hn1 Hn2 Hs1 Hs2.
  assert (Htr : Relations_1.Transitive (fun a b => String.leb a b = true))
    by (intros a b c; apply leb_trans).
  apply (Sorted_StronglySorted Htr) in Hs1.
  apply (Sorted_StronglySorted Htr) in Hs2.
  revert l2 Hn2 Hs2.
  induction l1 as [|x l1 IH]; intros l2 Hn2 Hs2 Hin.
  - destruct l2 as [|y l2]; [reflexivity|].
    exfalso. apply (proj2 (Hin y)). now left.
  - destruct l2 as [|y l2].
    + exfalso. apply (proj1 (Hin x)). now left.
    + inversion Hn1 as [|? ? Hx Hn1']; subst.
      inversion Hn2 as [|? ? Hy Hn2']; subst.
      inversion Hs1 as [|? ? Hs1' Hall1]; subst.
      inversion Hs2 as [|? ? Hs2' Hall2]; subst.
      rewrite Forall_forall in Hall1, Hall2.
      assert (Hxy : x = y).
      { destruct (proj1 (Hin x) (or_introl eq_refl)) as [E|Hxl2];
          [now symmetry|].
        destruct (proj2 (Hin y) (or_introl eq_refl)) as [E|Hyl1];
          [exact E|].
        apply String.leb_antisym; [now apply Hall1 | now apply Hall2]. }
      subst y. f_equal. apply IH; try assumption.
      intros z. split; intros Hz.
      * destruct (proj1 (Hin z) (or_intror Hz)) as [E|H]; [|exact H].
        subst z. contradiction.
      * destruct (proj2 (Hin z) (or_intror Hz)) as [E|H]; [|exact H].
        subst z. contradiction.
Qed.

End SortFacts.

Section FieldOrder.

Variable safe_name : string -> string.

(** X9. The fields of a rule class depend only on the set of attribute
    names the rule defines: two rules that define the same names, in any
    order, with any repetitions and list flags, get the same arguments in
    the same order. *)
Theorem arguments_ext (r1 r2 : Rule) :
  (forall d, In d (map fst (defines r1)) <-> In d (map fst (defines r2))) ->
  arguments safe_name r1 = arguments safe_name r2.
Proof.
  intros H. apply SortFacts.sorted_unique.
  - apply arguments_NoDup.
  - apply arguments_NoDup.
  - apply arguments_Sorted.
  - apply arguments_Sorted.
  - intros a. rewrite !arguments_In. split; intros [d [Hd ->]]; exists d;
      (split; [now apply H | reflexivity]).
Qed.

End FieldOrder.

Lemma arguments_ext_witness :
  arguments keyword_safe_name
    (mkRule "first" [PStr "P"]
       [("z", false); ("a", true); ("m", false); ("z", true)])
  = arguments keyword_safe_name
      (mkRule "second" [] [("m", true); ("z", false); ("a", false)]).
Proof.
  apply arguments_ext. intros d. simpl. intuition.
Defined.

(** ** The simple name of the root type *)

Module RootName.

Lemma dot_free_app (a b : string) :
  dot_free (a ++ b) = (dot_free a && dot_free b)%bool.
Proof.
  induction a as [|c a IH]; simpl; [reflexivity|].
  now rewrite IH, andb_assoc.
Qed.

Lemma split_dot_from_nonempty (s cur : string) :
  Py.split_dot_from cur s <> [].
Proof.
  revert cur. induction s as [|c s IH]; intros cur; simpl; [discriminate|].
  destruct (Ascii.eqb c "."); [discriminate | apply IH].
Qed.

Lemma last_cons (x : string) (l : list string) (d : string) :
  l <> [] -> last (x :: l) d = last l d.
Proof. destruct l; [congruence | reflexivity]. Qed.

Lemma split_dot_from_last (s cur : string) :
  dot_free cur = true ->
  dot_free (last (Py.split_dot_from cur s) EmptyString) = true /\
  exists pre,
    (cur ++ s)%string
    = (pre ++ last (Py.split_dot_from cur s) EmptyString)%string /\
    (pre = EmptyString \/ exists p, pre = (p ++ ".")%string).
Proof.
  revert cur. induction s as [|c s IH]; intros cur Hcur.
  - simpl. split; [exact Hcur|]. exists EmptyString.
    split; [now rewrite PyFacts.append_nil_r | now left].
  - cbn [Py.split_dot_from]. destruct (Ascii.eqb_spec c ".") as [->|Hc].
    + rewrite last_cons by apply split_dot_from_nonempty.
      destruct (IH EmptyString eq_refl) as [Hdf [pre [Heq Hpre]]].
      split; [exact Hdf|]. cbn [append] in Heq.
      exists (cur ++ "." ++ pre)%string. split.
      * rewrite !PyFacts.append_assoc. cbn [append]. now rewrite <- Heq.
      * right. destruct Hpre as [->|[p ->]].
        -- exists cur. reflexivity.
        -- exists (cur ++ "." ++ p)%string.
           now rewrite !PyFacts.append_assoc.
    + assert (Hcur' : dot_free (cur ++ String c EmptyString) = true).
      { rewrite dot_free_app, Hcur. simpl.
        apply Ascii.eqb_neq in Hc. now rewrite Hc. }
      destruct (IH _ Hcur') as [Hdf [pre [Heq Hpre]]].
      split; [exact Hdf|]. exists pre. split; [|exact Hpre].
      rewrite <- Heq, PyFacts.append_assoc. reflexivity.
Qed.

Lemma split_dot_from_dot_free (s cur : string) :
  dot_free s = true -> Py.split_dot_from cur s = [(cur ++ s)%string].
Proof.
  revert cur. induction s as [|c s IH]; intros cur H.
  - simpl. now rewrite PyFacts.append_nil_r.
  - simpl in H. apply andb_prop in H. destruct H as [Hc Hs].
    apply negb_true_iff in Hc. cbn [Py.split_dot_from]. rewrite Hc.
    rewrite (IH _ Hs), PyFacts.append_assoc. reflexivity.
Qed.

(** X11. The simple name of the root type, [__name__.split('.')[-1]],
    never holds a dot; [__name__] is that simple name, possibly after a
    prefix that ends with a dot; and a [__name__] without dot is its own
    simple name. *)
Theorem base_type_name_simple (bt : PyType) :
  dot_free (base_type_name bt) = true /\
  (exists pre,
     type_name bt = (pre ++ base_type_name bt)%string /\
     (pre = EmptyString \/ exists p, pre = (p ++ ".")%string)) /\
  (dot_free (type_name bt) = true -> base_type_name bt = type_name bt).
Proof.
  unfold base_type_name, Py.split_dot.
  destruct (@split_dot_from_last (type_name bt) EmptyString eq_refl)
    as [Hdf Hpre].
  split; [exact Hdf|]. split; [exact Hpre|].
  intros H. now rewrite (@split_dot_from_dot_free (type_name bt) EmptyString H).
Qed.

End RootName.

(** ** Names that cannot be ordered *)

Section Reserved.

Variable safe_name : string -> string.
Variable is_builtin : string -> bool.

Local Abbreviation specs_of := (_base_class_specs safe_name).

Lemma sorted_no_self_edge (g : Grammar) (btn : string) (names : list string)
    (c : string) :
  model_names safe_name g btn = Some names ->
  ~ In (c, c) (all_specs safe_name g).
Proof.
  intros Hnames Hcc.
  destruct (model_names_sound _ _ _ Hnames) as (Hnd & Hbf & Hkeys).
  assert (Hc : In c names).
  { apply Hkeys, specs_by_name_keys. right. now exists c. }
  apply in_split in Hc. destruct Hc as [l1 [l2 Hl]].
  pose proof (Hbf l1 c l2 c Hl Hcc) as Hin.
  rewrite Hl in Hnd. apply NoDup_remove_2 in Hnd.
  apply Hnd, in_or_app. now left.
Qed.

Lemma sorted_no_model_base_class (g : Grammar) (btn : string)
    (names : list string) (b : string) :
  model_names safe_name g btn = Some names ->
  ~ In ("ModelBase", b) (all_specs safe_name g).
Proof.
  intros Hnames Hedge.
  destruct (model_names_sound _ _ _ Hnames) as (Hnd & Hbf & Hkeys).
  assert (Hmb : In "ModelBase" names).
  { apply Hkeys, specs_by_name_keys. now left. }
  apply in_split in Hmb. destruct Hmb as [l1 [l2 Hl]].
  assert (Hclosed : forall x y, In x l1 -> In (x, y) (all_specs safe_name g) ->
                                In y l1).
  { intros x y Hx Hxy. apply in_split in Hx. destruct Hx as [la [lb Hl1]].
    assert (Hsplit : names = la ++ x :: (lb ++ "ModelBase" :: l2))
      by (rewrite Hl, Hl1, <- app_assoc; reflexivity).
    pose proof (Hbf _ _ _ _ Hsplit Hxy) as Hy.
    rewrite Hl1. apply in_or_app. now left. }
  pose proof (proj1 (all_specs_In safe_name g "ModelBase" b) Hedge)
    as (k & specs & Hget & Hs).
  destruct (rule_specs_nonempty _ _ _ Hget) as [_ [r [_ ->]]].
  destruct (params r) as [|[ann| |] rest] eqn:Hp;
    try (unfold _base_class_specs in Hs; rewrite Hp in Hs; contradiction).
  set (pieces := map safe_name (Py.split_dcolon ann)) in *.
  apply In_nth_error in Hs. destruct Hs as [i Hi].
  assert (Hlt : i < List.length pieces).
  { unfold pieces. rewrite length_map.
    rewrite <- (base_class_specs_length safe_name _ Hp).
    apply nth_error_Some. congruence. }
  rewrite (@base_class_specs_nth safe_name _ _ _ i Hp) in Hi by exact Hlt.
  fold pieces in Hi. inversion Hi as [[Hci Hbi]].
  assert (Hchain : forall d, i + 1 + d <= List.length pieces ->
            In (nth (i + 1 + d) (pieces ++ [_model_base_name]) EmptyString) l1).
  { induction d as [|d IHd]; intros Hd.
    - rewrite Nat.add_0_r, Hbi. now apply (Hbf l1 "ModelBase" l2 b Hl).
    - assert (Hj : i + 1 + d < List.length pieces) by lia.
      apply (Hclosed (nth (i + 1 + d) (pieces ++ [_model_base_name]) EmptyString));
        [apply IHd; lia|].
      apply all_specs_In. exists k, (specs_of r). split; [exact Hget|].
      apply (nth_error_In _ (i + 1 + d)).
      rewrite (@base_class_specs_nth safe_name _ _ _ (i + 1 + d) Hp)
        by exact Hj.
      fold pieces.
      rewrite (@app_nth1 _ pieces [_model_base_name] EmptyString (i + 1 + d) Hj).
      now replace (i + 1 + S d) with (i + 1 + d + 1) by lia. }
  specialize (Hchain (List.length pieces - (i + 1))).
  replace (i + 1 + (List.length pieces - (i + 1))) with (List.length pieces)
    in Hchain by lia.
  rewrite app_nth2, Nat.sub_diag in Hchain by lia. cbn [nth] in Hchain.
  rewrite Hl in Hnd. apply NoDup_remove_2 in Hnd.
  apply Hnd, in_or_app. left. apply Hchain. lia.
Qed.

(** X12. With the order of [topsort] (modelled from the spec: every base
    before its class), a run that gets its sorted names has no edge from a
    class to itself and no edge whose class is [ModelBase]: since every
    chain ends at [ModelBase], such an edge closes a cycle.  Hence
    [ModelBase] is never the class of a rule, and a grammar with an
    annotation that names a class twice in a row, or that names
    [ModelBase], makes [generate_model] raise. *)
Theorem model_base_reserved (g : Grammar) (self : PythonModelGenerator)
    (text : string) (self' : PythonModelGenerator) :
  generate_model safe_name is_builtin g self = (Ok text, self') ->
  (forall c b, In (c, b) (all_specs safe_name g) ->
               c <> b /\ c <> "ModelBase") /\
  Py.dict_get (model_to_rule safe_name g) "ModelBase" = None.
Proof.
  rewrite generate_model_run. cbv zeta.
  destruct (model_names safe_name g (base_type_name (base_type self)))
    as [names|] eqn:Hnames; intros H; [|discriminate H]. clear H.
  assert (Hedges : forall c b, In (c, b) (all_specs safe_name g) ->
                               c <> b /\ c <> "ModelBase").
  { intros c b Hcb. split; intros ->.
    - now apply (sorted_no_self_edge _ _ b Hnames).
    - now apply (sorted_no_model_base_class _ _ b Hnames). }
  split; [exact Hedges|].
  destruct (Py.dict_get (model_to_rule safe_name g) "ModelBase") as [r|] eqn:E;
    [|reflexivity].
  exfalso.
  destruct (@model_to_rule_edge _ _ _ _ E) as (s & rest & _ & _ & Hin).
  destruct (Hedges _ _ Hin) as [_ F]. now apply F.
Qed.

End Reserved.

Lemma model_base_reserved_witness :
  Py.dict_get (model_to_rule keyword_safe_name grammar_foo) "ModelBase" = None.
Proof.
  assert (Hrun : generate_model keyword_safe_name python_builtin grammar_foo
                   (__init__ "" Node)
                 = (Ok (demo_text grammar_foo), demo_state grammar_foo))
    by (vm_compute; reflexivity).
  exact (proj2 (@model_base_reserved keyword_safe_name python_builtin
                  grammar_foo (__init__ "" Node) (demo_text grammar_foo)
                  (demo_state grammar_foo) Hrun)).
Defined.

(** A rule that names [ModelBase] as a class stops the generator. *)
Example model_base_as_class_raises :
  fst (generate_model keyword_safe_name python_builtin
         (mkGrammar "Demo" [mkRule "top" [PStr "ModelBase::Top"] []])
         (__init__ "" Node))
  = Raise (ValueError "There are cycles").
Proof. vm_compute. reflexivity. Qed.

(** ** Where the class names come from *)

Section Domain.

Variable safe_name : string -> string.

Local Abbreviation specs_of := (_base_class_specs safe_name).

(** X13. The generator invents no class name: the keys of the base map,
    which are the names handed to the sort, are [ModelBase] and the
    sanitized pieces of the annotations of the rules kept in the index,
    and nothing else. *)
Theorem base_map_domain (g : Grammar) (btn c : string) :
  In c (Py.keys (specs_by_name safe_name g btn)) <->
  c = "ModelBase" \/
  exists r annotation rest,
    Py.dict_get (rule_index g) (name r) = Some r /\
    params r = PStr annotation :: rest /\
    In c (map safe_name (Py.split_dcolon annotation)).
Proof.
  rewrite specs_by_name_keys. apply or_iff_compat_l. split.
  - intros [b Hcb]. apply all_specs_In in Hcb.
    destruct Hcb as (k & specs & Hget & Hs).
    destruct (rule_specs_nonempty _ _ _ Hget) as [Hne [r [Hidx ->]]].
    destruct (rule_index_sound _ _ Hidx) as [_ Hk]. subst k.
    destruct (params r) as [|[ann| |] rest] eqn:Hp;
      try (unfold _base_class_specs in Hs; rewrite Hp in Hs; contradiction).
    exists r, ann, rest. split; [exact Hidx|]. split; [exact Hp|].
    rewrite <- (base_class_specs_classes safe_name _ Hp).
    apply in_map_iff. exists (mkSpec c b). now split.
  - intros (r & ann & rest & Hidx & Hp & Hin).
    rewrite <- (base_class_specs_classes safe_name _ Hp) in Hin.
    apply in_map_iff in Hin. destruct Hin as [[c' b] [Hc Hs]].
    cbn [class_name] in Hc. subst c'. exists b. apply all_specs_In.
    exists (name r), (specs_of r). split; [|exact Hs].
    rewrite rule_specs_get, Hidx.
    destruct (specs_of r); [contradiction | reflexivity].
Qed.

(** X14. When several rules have the same name, only the last one counts:
    it is the rule of the index, its chain is the one kept under the name,
    and when it is not annotated the name has no chain at all, even if an
    earlier rule of that name is annotated. *)
Theorem last_rule_of_a_name_counts (g : Grammar) (l1 l2 : list Rule)
    (r : Rule) :
  rules g = l1 ++ r :: l2 ->
  (forall r', In r' l2 -> name r' <> name r) ->
  Py.dict_get (rule_index g) (name r) = Some r /\
  (annotated r = true ->
   Py.dict_get (rule_specs safe_name g) (name r) = Some (specs_of r)) /\
  (annotated r = false ->
   Py.dict_get (rule_specs safe_name g) (name r) = None).
Proof.
  intros Hrules Hlast.
  assert (Hidx : Py.dict_get (rule_index g) (name r) = Some r).
  { rewrite rule_index_get, Hrules, rev_app_distr. cbn [rev].
    rewrite <- app_assoc, map_app, DictFacts.dict_get_app.
    assert (E : Py.dict_get (map (fun r0 => (name r0, r0)) (rev l2)) (name r)
                = None).
    { apply DictFacts.dict_get_None. unfold Py.keys. rewrite map_map.
      cbn [fst]. intros Hin. apply in_map_iff in Hin.
      destruct Hin as [r' [Hn Hr']]. apply in_rev in Hr'.
      now apply (Hlast r' Hr'). }
    rewrite E. cbn [app map Py.dict_get]. now rewrite String.eqb_refl. }
  split; [exact Hidx|]. rewrite rule_specs_get, Hidx. split.
  - intros Ha. pose proof (annotated_specs_nonempty safe_name _ Ha) as Hne.
    now destruct (specs_of r).
  - intros Ha. now rewrite (unannotated_specs safe_name _ Ha).
Qed.

End Domain.

Lemma last_rule_of_a_name_counts_witness :
  Py.dict_get
    (rule_specs keyword_safe_name
       (mkGrammar "Demo"
          [mkRule "expr" [PStr "Expr"] [("v", false)];
           mkRule "term" [PStr "Term"] [];
           mkRule "expr" [] []]))
    "expr"
  = None.
Proof.
  refine (proj2 (proj2
    (@last_rule_of_a_name_counts keyword_safe_name
       (mkGrammar "Demo"
          [mkRule "expr" [PStr "Expr"] [("v", false)];
           mkRule "term" [PStr "Term"] [];
           mkRule "expr" [] []])
       [mkRule "expr" [PStr "Expr"] [("v", false)];
        mkRule "term" [PStr "Term"] []]
       [] (mkRule "expr" [] []) eq_refl _)) eq_refl).
  intros r' [].
Defined.

(** ** The declaration without base *)

Section Baseless.

Variable safe_name : string -> string.
Variable is_builtin : string -> bool.

Local Abbreviation emit := (emit_lines safe_name is_builtin).

(** C8. The branch of [_gen_base_class] that prints a declaration without
    base is reached: it tests the truth of the base, and the recorded base
    of a sorted name can be the empty text.  For every sorted name that is
    not built in, not the leaf class of a rule, and whose recorded base is
    the empty text, the loop calls [_gen_base_class] with that empty base,
    the run returns, and the text it returns, which is the text of its
    buffer, holds the declaration [class n:] with the body [pass]. *)
Theorem baseless_branch_reached (g : Grammar) (nm : string) (bt : PyType)
    (names : list string) (n : string) :
  model_names safe_name g (base_type_name bt) = Some names ->
  In n names ->
  is_builtin n = false ->
  Py.dict_get (model_to_rule safe_name g) n = None ->
  Py.dict_get (specs_by_name safe_name g (base_type_name bt)) n
  = Some EmptyString ->
  emit_model safe_name is_builtin g (base_type_name bt) n
  = _gen_base_class n (Some EmptyString) /\
  exists text self' before after,
    generate_model safe_name is_builtin g (__init__ nm bt) = (Ok text, self') /\
    text = unlines (output self') /\
    output self'
    = preamble nm bt g ++ before
      ++ [""; ""; "@dataclass(eq=False)"; ("class " ++ n ++ ":")%string;
          "    pass"]
      ++ after.
Proof.
  intros Hnames Hin Hb Hleaf Hbase. split.
  - unfold emit_model. now rewrite Hb, Hleaf, Hbase.
  - apply in_split in Hin. destruct Hin as [n1 [n2 Hsplit]].
    rewrite generate_model_fresh, Hnames. cbv zeta.
    exists (unlines (preamble nm bt g
                     ++ flat_map (emit g (base_type_name bt) 0) names)).
    eexists.
    exists (flat_map (emit g (base_type_name bt) 0) n1),
      (flat_map (emit g (base_type_name bt) 0) n2).
    split; [reflexivity|]. cbn [output]. split; [reflexivity|].
    f_equal. rewrite Hsplit, flat_map_app. cbn [flat_map]. f_equal. f_equal.
    unfold emit_lines. rewrite Hb, Hleaf, Hbase.
    unfold base_class_lines. rewrite !PrintFacts.indent_line_0.
    reflexivity.
Qed.

End Baseless.

Lemma baseless_branch_reached_witness :
  (exists text self' before after,
     generate_model keyword_safe_name python_builtin grammar_single
       (__init__ "" nameless_type) = (Ok text, self') /\
     text = unlines (output self') /\
     output self'
     = preamble "" nameless_type grammar_single ++ before
       ++ [""; ""; "@dataclass(eq=False)"; "class ModelBase:"; "    pass"]
       ++ after) /\
  (exists text self' before after,
     generate_model keyword_safe_name python_builtin grammar_trailing
       (__init__ "" Node) = (Ok text, self') /\
     text = unlines (output self') /\
     output self'
     = preamble "" Node grammar_trailing ++ before
       ++ [""; ""; "@dataclass(eq=False)"; "class B:"; "    pass"]
       ++ after).
Proof.
  split.
  - apply (proj2
      (@baseless_branch_reached keyword_safe_name python_builtin
         grammar_single "" nameless_type ["ModelBase"; "Thing"] "ModelBase"
         eq_refl (or_introl eq_refl) eq_refl eq_refl eq_refl)).
  - apply (proj2
      (@baseless_branch_reached keyword_safe_name python_builtin
         grammar_trailing "" Node ["ModelBase"; ""; "B"; "A"] "B"
         eq_refl (or_intror (or_intror (or_introl eq_refl)))
         eq_refl eq_refl eq_refl)).
Defined.
